(** * The Community model of socialcap-lib

    A shallow embedding of [src/contracts/models/communities-alt-version.ts]:
    the [_Community_] class (its field initialisers, constructor, [fromJSON],
    [toJSON] and [hash]), the exported [Community] factory and the four
    coercion helpers [asCircuitString], [asPublicKey], [asField], [asArray].

    The file is organised as follows.
    - [Js]: the fragment of JavaScript the source relies on: completions
      (normal return or a thrown exception), [BigInt(string)], [substring],
      the [||] operator.
    - [Snarky]: the snarkyjs values the class stores: [Field], [Bool],
      [Character], [CircuitString], [PublicKey].
    - [Collaborators] and Section [Class]: the class itself, over the three
      collaborators whose code is not part of the file under study (the
      Poseidon sponge, the base58 codec of public keys, the UTC date-time
      rendering).
    - The properties of the model, one block per subject, and their runs
      on concrete inputs. *)

From Stdlib Require Import ZArith List String Ascii Bool Lia.
From Stdlib Require Import DecimalString DecimalN.
Import ListNotations.

Local Open Scope string_scope.
Local Open Scope list_scope.

(* ===================================================================== *)
(** * JavaScript *)
(* ===================================================================== *)

(** The exceptions the modelled code can raise. [TypeError] is raised by the
    language itself (a property read on [undefined] or [null]); [SyntaxError]
    by [BigInt] on a string that is not an integer literal; [RangeError] by
    a date formatter on a time value out of range; [Error] by the framework
    ([throw Error(...)]). *)
Inductive exn : Type :=
| TypeError (message : string)
| SyntaxError (message : string)
| RangeError (message : string)
| Error (message : string).

(** The outcome of evaluating an expression or calling a function. *)
Inductive completion (A : Type) : Type :=
| Normal (value : A)
| Throw (e : exn).

Arguments Normal {A} value.
Arguments Throw {A} e.

Module Js.

Definition bind {A B : Type} (c : completion A) (k : A -> completion B)
  : completion B :=
  match c with
  | Normal a => k a
  | Throw e => Throw e
  end.

(** [xs.map(f)] for an [f] that may throw: elements are visited from left to
    right and the first exception aborts the traversal. *)
Fixpoint map {A B : Type} (f : A -> completion B) (xs : list A)
  : completion (list B) :=
  match xs with
  | [] => Normal []
  | x :: rest =>
      bind (f x) (fun y =>
      bind (map f rest) (fun ys =>
      Normal (y :: ys)))
  end.

(** [a || b] where [a] is an object reference or [undefined]: every object is
    truthy, [undefined] is falsy. *)
Definition or_else {A : Type} (a : option A) (b : A) : A :=
  match a with
  | Some v => v
  | None => b
  end.

(** [s || ""] on a string: the empty string is the only falsy string. *)
Definition or_empty (s : string) : string :=
  if String.eqb s "" then "" else s.

(** [s.substring(indexStart, indexEnd)]: the two indices are swapped when
    out of order and clamped to the length of [s]. *)
Definition substring (s : string) (indexStart indexEnd : nat) : string :=
  let first := Nat.min indexStart indexEnd in
  let last := Nat.max indexStart indexEnd in
  String.substring first (last - first) s.

(** ** [BigInt(string)]

    ECMAScript's StringToBigInt: optional white space around an optional
    integer literal, which is a signed run of decimal digits or an unsigned
    literal in base 16, 8 or 2.  The empty literal is [0n].  Strings are
    modelled with 8-bit code units, so the white space characters are those
    below 256. *)

Definition StrWhiteSpaceChar (c : ascii) : bool :=
  let n := nat_of_ascii c in
  ((9 <=? n) && (n <=? 13) || (n =? 32) || (n =? 160))%nat.

Fixpoint trimStart (s : string) : string :=
  match s with
  | "" => ""
  | String c rest => if StrWhiteSpaceChar c then trimStart rest else s
  end.

Fixpoint trimEnd (s : string) : string :=
  match s with
  | "" => ""
  | String c rest =>
      let rest' := trimEnd rest in
      if StrWhiteSpaceChar c && String.eqb rest' "" then "" else String c rest'
  end.

Definition trim (s : string) : string := trimEnd (trimStart s).

Definition digit_value (c : ascii) : option Z :=
  let n := Z.of_nat (nat_of_ascii c) in
  if ((48 <=? n) && (n <=? 57))%Z then Some (n - 48)%Z
  else if ((97 <=? n) && (n <=? 102))%Z then Some (n - 87)%Z
  else if ((65 <=? n) && (n <=? 70))%Z then Some (n - 55)%Z
  else None.

Fixpoint digits_MV (radix : Z) (s : string) (acc : Z) : option Z :=
  match s with
  | "" => Some acc
  | String c rest =>
      match digit_value c with
      | Some d =>
          if (d <? radix)%Z then digits_MV radix rest (acc * radix + d)%Z
          else None
      | None => None
      end
  end.

(** The digits after [0x], [0o] or [0b]: at least one. *)
Definition NonDecimalDigits (radix : Z) (s : string) : option Z :=
  match s with
  | "" => None
  | _ => digits_MV radix s 0%Z
  end.

(** A non-empty run of decimal digits. *)
Definition DecimalDigits (s : string) : option Z :=
  option_map Z.of_uint (NilZero.uint_of_string s).

Definition radix_of_prefix (c : ascii) : option Z :=
  if (Ascii.eqb c "x" || Ascii.eqb c "X")%bool then Some 16%Z
  else if (Ascii.eqb c "o" || Ascii.eqb c "O")%bool then Some 8%Z
  else if (Ascii.eqb c "b" || Ascii.eqb c "B")%bool then Some 2%Z
  else None.

Definition StrIntegerLiteral (text : string) : option Z :=
  match text with
  | String c0 (String c1 digits as tail) =>
      if Ascii.eqb c0 "0" then
        match radix_of_prefix c1 with
        | Some radix => NonDecimalDigits radix digits
        | None => DecimalDigits text
        end
      else if Ascii.eqb c0 "+" then DecimalDigits tail
      else if Ascii.eqb c0 "-" then option_map Z.opp (DecimalDigits tail)
      else DecimalDigits text
  | _ => DecimalDigits text
  end.

Definition StringToBigInt (str : string) : option Z :=
  let text := trim str in
  if String.eqb text "" then Some 0%Z else StrIntegerLiteral text.

Definition BigInt (str : string) : completion Z :=
  match StringToBigInt str with
  | Some n => Normal n
  | None => Throw (SyntaxError ("Cannot convert " ++ str ++ " to a BigInt"))
  end.

(** [n.toString()] of a non-negative bigint: its decimal numeral. *)
Definition decimal (n : Z) : string :=
  NilZero.string_of_uint (N.to_uint (Z.to_N n)).

End Js.

(* ===================================================================== *)
(** * The snarkyjs values stored in a Community *)
(* ===================================================================== *)

Module Snarky.

(** The order of the Pallas base field, in which [Field] computes. *)
Definition p : Z :=
  28948022309329048855892746252171976963363056481941560715954676764349967630337%Z.

(** A field element is kept as its canonical representative in [0, p). *)
Definition Field : Type := Z.

Definition Fp (n : Z) : Field := (n mod p)%Z.

(** [Field(x)] for a number or a bigint [x]. *)
Definition Field_of_number (n : Z) : Field := Fp n.

(** [Field(x)] for a string [x]: [Fp(BigInt(x))]; the exception of [BigInt]
    is not caught. *)
Definition Field_of_string (x : string) : completion Field :=
  Js.bind (Js.BigInt x) (fun n => Normal (Fp n)).

Definition Field_toString (f : Field) : string := Js.decimal f.

Definition Field_toFields (f : Field) : list Field := [f].

Definition Bool_toField (b : bool) : Field :=
  if b then Field_of_number 1 else Field_of_number 0.

(** A public key: the x coordinate of a curve point and the parity of y. *)
Record PublicKey : Type := { x : Field; isOdd : bool }.

Definition PublicKey_empty : PublicKey :=
  {| x := Field_of_number 0; isOdd := false |}.

Definition PublicKey_toFields (pk : PublicKey) : list Field :=
  [x pk; Bool_toField (isOdd pk)].

(** A character is the field element of its code unit. *)
Record Character : Type := { value : Field }.

Definition Character_fromString (c : ascii) : Character :=
  {| value := Field_of_number (Z.of_N (N_of_ascii c)) |}.

Definition Character_toString (c : Character) : ascii :=
  ascii_of_N (Z.to_N (value c)).

Definition NullCharacter : Character := {| value := Field_of_number 0 |}.

(** [CircuitString.maxLength], snarkyjs's DEFAULT_STRING_LENGTH. *)
Definition maxLength : nat := 128.

Record CircuitString : Type := { values : list Character }.

Definition fillWithNull (chars : list Character) (length : nat)
  : list Character :=
  chars ++ repeat NullCharacter (length - List.length chars).

Definition CircuitString_fromCharacters (chars : list Character)
  : CircuitString :=
  {| values := fillWithNull chars maxLength |}.

Definition CircuitString_fromString (str : string)
  : completion CircuitString :=
  if (maxLength <? String.length str)%nat
  then Throw (Error "CircuitString.fromString: input string exceeds max length!")
  else Normal (CircuitString_fromCharacters
                 (List.map Character_fromString (list_ascii_of_string str))).

(** The characters [toString] keeps: those matched by [[ -~]]. *)
Definition printable (c : ascii) : bool :=
  let n := nat_of_ascii c in ((32 <=? n) && (n <=? 126))%nat.

(** [values.map(x => x.toString()).join('').replace(/[^ -~]+/g, '')] *)
Definition CircuitString_toString (cs : CircuitString) : string :=
  string_of_list_ascii
    (List.filter printable (List.map Character_toString (values cs))).

Definition CircuitString_toFields (cs : CircuitString) : list Field :=
  List.map value (values cs).

End Snarky.

Import Snarky.

(* ===================================================================== *)
(** * Collaborators outside the file *)
(* ===================================================================== *)

(** The class calls three collaborators whose code is not in the file: the
    Poseidon sponge and the base58 codec of public keys (snarkyjs), and the
    UTC date-time helper of the repository.  The model takes them as
    parameters. *)
Class Collaborators : Type := {
  (** [Poseidon.hash(fields)] *)
  Poseidon_hash : list Field -> Field;
  (** [PublicKey.fromBase58(s)], which throws on a string that is not the
      base58 encoding of a key *)
  PublicKey_fromBase58 : string -> completion PublicKey;
  (** [pk.toBase58()] *)
  PublicKey_toBase58 : PublicKey -> string;
  (** [UTCDateTime.fromField(f).toString()] of [helpers/datetime.js],
      which is not among the sources: the text it renders for the stored
      field element [f], or the exception it throws (a date formatter
      throws on a time value out of its range) *)
  UTCDateTime_toString : Field -> completion string
}.

(* ===================================================================== *)
(** * The Community class *)
(* ===================================================================== *)

(** The object [fromJSON] reads: [uid] is required, every other property is
    optional ([None] is [undefined]). *)
Module Json.
Record t : Type := {
  uid : string;
  fullName : option string;
  description : option string;
  accountId : option string;
  state : option string;
  createdUTC : option string;
  approvedUTC : option string;
  updatedUTC : option string;
  validators : option (list string);
  auditors : option (list string);
  admins : option (list string);
  plans : option (list string)
}.
End Json.

(** A value of type [any], as the constructor and the factory receive it. *)
Inductive any : Type :=
| undefined
| null
| object (o : Json.t).

(** The object [toJSON] returns. *)
Module Plain.
Record t : Type := {
  uid : string;
  accountId : string;
  fullName : string;
  description : string;
  state : string;
  approvedUTC : string;
  createdUTC : string;
  updatedUTC : string;
  admins : list string;
  validators : list string;
  auditors : list string;
  plans : list string
}.

End Plain.

(** The state of a [_Community_] object.  [uid] is the one field the
    [Struct] base declares and no initialiser sets: it is [None] until
    [fromJSON] stores a field element in it. *)
Record _Community_ : Type := {
  uid : option Field;
  accountId : PublicKey;
  fullName : CircuitString;
  description : CircuitString;
  state : CircuitString;
  createdUTC : Field;
  updatedUTC : Field;
  approvedUTC : Field;
  admins : list Field;
  validators : list Field;
  auditors : list Field;
  plans : list Field
}.

(** Assignments [this.f = v]. *)
Definition set_uid (v : Field) (this : _Community_) : _Community_ :=
  {| uid := Some v; accountId := accountId this; fullName := fullName this;
     description := description this; state := state this;
     createdUTC := createdUTC this; updatedUTC := updatedUTC this;
     approvedUTC := approvedUTC this; admins := admins this;
     validators := validators this; auditors := auditors this;
     plans := plans this |}.

Definition set_accountId (v : PublicKey) (this : _Community_) : _Community_ :=
  {| uid := uid this; accountId := v; fullName := fullName this;
     description := description this; state := state this;
     createdUTC := createdUTC this; updatedUTC := updatedUTC this;
     approvedUTC := approvedUTC this; admins := admins this;
     validators := validators this; auditors := auditors this;
     plans := plans this |}.

Definition set_fullName (v : CircuitString) (this : _Community_)
  : _Community_ :=
  {| uid := uid this; accountId := accountId this; fullName := v;
     description := description this; state := state this;
     createdUTC := createdUTC this; updatedUTC := updatedUTC this;
     approvedUTC := approvedUTC this; admins := admins this;
     validators := validators this; auditors := auditors this;
     plans := plans this |}.

Definition set_description (v : CircuitString) (this : _Community_)
  : _Community_ :=
  {| uid := uid this; accountId := accountId this; fullName := fullName this;
     description := v; state := state this;
     createdUTC := createdUTC this; updatedUTC := updatedUTC this;
     approvedUTC := approvedUTC this; admins := admins this;
     validators := validators this; auditors := auditors this;
     plans := plans this |}.

Definition set_state (v : CircuitString) (this : _Community_) : _Community_ :=
  {| uid := uid this; accountId := accountId this; fullName := fullName this;
     description := description this; state := v;
     createdUTC := createdUTC this; updatedUTC := updatedUTC this;
     approvedUTC := approvedUTC this; admins := admins this;
     validators := validators this; auditors := auditors this;
     plans := plans this |}.

Definition set_createdUTC (v : Field) (this : _Community_) : _Community_ :=
  {| uid := uid this; accountId := accountId this; fullName := fullName this;
     description := description this; state := state this;
     createdUTC := v; updatedUTC := updatedUTC this;
     approvedUTC := approvedUTC this; admins := admins this;
     validators := validators this; auditors := auditors this;
     plans := plans this |}.

Definition set_updatedUTC (v : Field) (this : _Community_) : _Community_ :=
  {| uid := uid this; accountId := accountId this; fullName := fullName this;
     description := description this; state := state this;
     createdUTC := createdUTC this; updatedUTC := v;
     approvedUTC := approvedUTC this; admins := admins this;
     validators := validators this; auditors := auditors this;
     plans := plans this |}.

Definition set_approvedUTC (v : Field) (this : _Community_) : _Community_ :=
  {| uid := uid this; accountId := accountId this; fullName := fullName this;
     description := description this; state := state this;
     createdUTC := createdUTC this; updatedUTC := updatedUTC this;
     approvedUTC := v; admins := admins this;
     validators := validators this; auditors := auditors this;
     plans := plans this |}.

Definition set_admins (v : list Field) (this : _Community_) : _Community_ :=
  {| uid := uid this; accountId := accountId this; fullName := fullName this;
     description := description this; state := state this;
     createdUTC := createdUTC this; updatedUTC := updatedUTC this;
     approvedUTC := approvedUTC this; admins := v;
     validators := validators this; auditors := auditors this;
     plans := plans this |}.

Definition set_validators (v : list Field) (this : _Community_)
  : _Community_ :=
  {| uid := uid this; accountId := accountId this; fullName := fullName this;
     description := description this; state := state this;
     createdUTC := createdUTC this; updatedUTC := updatedUTC this;
     approvedUTC := approvedUTC this; admins := admins this;
     validators := v; auditors := auditors this;
     plans := plans this |}.

Definition set_auditors (v : list Field) (this : _Community_) : _Community_ :=
  {| uid := uid this; accountId := accountId this; fullName := fullName this;
     description := description this; state := state this;
     createdUTC := createdUTC this; updatedUTC := updatedUTC this;
     approvedUTC := approvedUTC this; admins := admins this;
     validators := validators this; auditors := v;
     plans := plans this |}.

Definition set_plans (v : list Field) (this : _Community_) : _Community_ :=
  {| uid := uid this; accountId := accountId this; fullName := fullName this;
     description := description this; state := state this;
     createdUTC := createdUTC this; updatedUTC := updatedUTC this;
     approvedUTC := approvedUTC this; admins := admins this;
     validators := validators this; auditors := auditors this;
     plans := v |}.

(** ** Methods

    A method body runs on the object [this], which it may update, and ends
    by returning a value or by throwing; in both cases it leaves the object
    as updated so far. *)
Definition method (A : Type) : Type :=
  _Community_ -> completion A * _Community_.

Definition seq {A B : Type} (m : method A) (k : A -> method B) : method B :=
  fun this =>
    match m this with
    | (Normal a, this') => k a this'
    | (Throw e, this') => (Throw e, this')
    end.

(** Evaluate an expression that does not touch [this]. *)
Definition eval {A : Type} (c : completion A) : method A :=
  fun this => (c, this).

(** Read [this.f]. *)
Definition read {A : Type} (f : _Community_ -> A) : method A :=
  fun this => (Normal (f this), this).

(** Assign [this.f = v]. *)
Definition assign {A : Type} (set : A -> _Community_ -> _Community_) (v : A)
  : method unit :=
  fun this => (Normal tt, set v this).

Declare Scope method_scope.
Delimit Scope method_scope with method.
Notation "x <- m ;; k" := (seq m (fun x => k))
  (at level 61, m at next level, right associativity) : method_scope.
Notation "m ;; k" := (seq m (fun _ => k))
  (at level 61, right associativity) : method_scope.

(** ** The coercion helpers (lines 126-149) *)

Definition asCircuitString (s : option string) (defaulted : CircuitString)
  : completion CircuitString :=
  match s with
  | None => Normal defaulted
  | Some s =>
      let s := Js.substring (Js.or_empty s) 0 (maxLength - 1) in
      CircuitString_fromString s
  end.

Definition asField (s : option string) (defaulted : Field)
  : completion Field :=
  match s with
  | None => Normal defaulted
  | Some s => Field_of_string s
  end.

Definition asArray (s : option (list string)) (defaulted : list Field)
  : completion (list Field) :=
  match s with
  | None => Normal defaulted
  | Some s => Js.map Field_of_string s
  end.

(** Reading a property of [json]: a [TypeError] when [json] is [undefined]
    or [null]. *)
Definition properties_of (json : any) (property : string)
  : completion Json.t :=
  match json with
  | object o => Normal o
  | undefined =>
      Throw (TypeError ("Cannot read properties of undefined (reading '"
                          ++ property ++ "')"))
  | null =>
      Throw (TypeError ("Cannot read properties of null (reading '"
                          ++ property ++ "')"))
  end.

(** Calling a method of [this.uid]: a [TypeError] while the slot is
    [undefined]. *)
Definition uid_of (this : _Community_) (property : string)
  : completion Field :=
  match uid this with
  | Some u => Normal u
  | None =>
      Throw (TypeError ("Cannot read properties of undefined (reading '"
                          ++ property ++ "')"))
  end.

Section Class.

Context {collaborators : Collaborators}.

Definition asPublicKey (s : option string) (defaulted : option PublicKey)
  : completion PublicKey :=
  match s with
  | None => Normal (Js.or_else defaulted PublicKey_empty)
  | Some s => PublicKey_fromBase58 s
  end.

Local Open Scope method_scope.

(** [fromJSON] (lines 63-90).  The first statement reads [json.uid], which
    throws when [json] is not an object; the later reads of [json] then
    cannot fail. *)
Definition fromJSON (json : any) : method _Community_ :=
  json <- eval (properties_of json "uid") ;;
  v <- eval (Field_of_string (Json.uid json)) ;;
  assign set_uid v ;;
  d <- read accountId ;;
  v <- eval (asPublicKey (Json.accountId json) (Some d)) ;;
  assign set_accountId v ;;
  d <- read fullName ;;
  v <- eval (asCircuitString (Json.fullName json) d) ;;
  assign set_fullName v ;;
  d <- read description ;;
  v <- eval (asCircuitString (Json.description json) d) ;;
  assign set_description v ;;
  d <- read state ;;
  v <- eval (asCircuitString (Json.state json) d) ;;
  assign set_state v ;;
  d <- read approvedUTC ;;
  v <- eval (asField (Json.approvedUTC json) d) ;;
  assign set_approvedUTC v ;;
  d <- read createdUTC ;;
  v <- eval (asField (Json.createdUTC json) d) ;;
  assign set_createdUTC v ;;
  d <- read createdUTC ;;
  v <- eval (asField (Json.updatedUTC json) d) ;;
  assign set_createdUTC v ;;
  d <- read admins ;;
  v <- eval (asArray (Json.admins json) d) ;;
  assign set_admins v ;;
  d <- read validators ;;
  v <- eval (asArray (Json.validators json) d) ;;
  assign set_validators v ;;
  d <- read auditors ;;
  v <- eval (asArray (Json.auditors json) d) ;;
  assign set_auditors v ;;
  d <- read plans ;;
  v <- eval (asArray (Json.plans json) d) ;;
  assign set_plans v ;;
  read (fun this => this).

(** [toJSON] (lines 92-107).  The properties of the object literal are
    evaluated in the order they are written; the calls that can throw are
    the read of [this.uid] and the three calls of the date-time helper. *)
Definition toJSON (this : _Community_) : completion Plain.t :=
  Js.bind (uid_of this "toString") (fun u =>
  Js.bind (UTCDateTime_toString (approvedUTC this)) (fun approvedUTC' =>
  Js.bind (UTCDateTime_toString (createdUTC this)) (fun createdUTC' =>
  Js.bind (UTCDateTime_toString (updatedUTC this)) (fun updatedUTC' =>
  Normal
    {| Plain.uid := Field_toString u;
       Plain.accountId :=
         PublicKey_toBase58 (Js.or_else (Some (accountId this)) PublicKey_empty);
       Plain.fullName := CircuitString_toString (fullName this);
       Plain.description := CircuitString_toString (description this);
       Plain.state := CircuitString_toString (state this);
       Plain.approvedUTC := approvedUTC';
       Plain.createdUTC := createdUTC';
       Plain.updatedUTC := updatedUTC';
       Plain.admins := List.map Field_toString (admins this);
       Plain.validators := List.map Field_toString (validators this);
       Plain.auditors := List.map Field_toString (auditors this);
       Plain.plans := List.map Field_toString (plans this) |})))).

(** [hash] (lines 109-123): [fields] grows by one [concat] per line. *)
Definition hash (this : _Community_) : completion Field :=
  let fields : list Field := [] in
  Js.bind (uid_of this "toFields") (fun u =>
  let fields :=
    (((((((((fields
      ++ Field_toFields u)
      ++ PublicKey_toFields (accountId this))
      ++ CircuitString_toFields (fullName this))
      ++ CircuitString_toFields (description this))
      ++ CircuitString_toFields (state this))
      ++ [approvedUTC this; createdUTC this; updatedUTC this])
      ++ admins this)
      ++ validators this)
      ++ auditors this)
      ++ plans this in
  Normal (Poseidon_hash fields)).

(** The field initialisers (lines 41-51), run after [super(json)] in the
    order of their declaration. *)
Definition field_initialisers : completion _Community_ :=
  let accountId0 := PublicKey_empty in
  Js.bind (CircuitString_fromString "?") (fun fullName0 =>
  Js.bind (CircuitString_fromString "") (fun description0 =>
  Js.bind (CircuitString_fromString "INITIAL") (fun state0 =>
  Normal
    {| uid := None;
       accountId := accountId0;
       fullName := fullName0;
       description := description0;
       state := state0;
       createdUTC := Field_of_number 0;
       updatedUTC := Field_of_number 0;
       approvedUTC := Field_of_number 0;
       admins := [];
       validators := [];
       auditors := [];
       plans := [] |}))).

(** The constructor (lines 58-61).  [super(json)] is [Object.assign(this,
    json)], which copies nothing when [json] is [undefined] and never
    throws; what it copies from an object is overwritten by the
    initialisers, except [uid], which holds no field element before
    [fromJSON] assigns it. *)
Definition constructor (json : any) : completion _Community_ :=
  Js.bind field_initialisers (fun this =>
  match fromJSON json this with
  | (Normal _, this') => Normal this'
  | (Throw e, _) => Throw e
  end).

(** The exported factory (line 37):
    [(params) => new _Community_().fromJSON(params)]. *)
Definition Community (params : any) : completion _Community_ :=
  Js.bind (constructor undefined) (fun this =>
  fst (fromJSON params this)).

End Class.

(** The object the field initialisers leave. *)
Definition fresh : _Community_ :=
  {| uid := None;
     accountId := PublicKey_empty;
     fullName :=
       CircuitString_fromCharacters
         (List.map Character_fromString (list_ascii_of_string "?"));
     description := CircuitString_fromCharacters [];
     state :=
       CircuitString_fromCharacters
         (List.map Character_fromString (list_ascii_of_string "INITIAL"));
     createdUTC := Field_of_number 0;
     updatedUTC := Field_of_number 0;
     approvedUTC := Field_of_number 0;
     admins := [];
     validators := [];
     auditors := [];
     plans := [] |}.

(** ** Two small instances of the collaborators

    They serve to run the model on concrete inputs.  The sponge folds the
    sequence into one field element and the key codec knows the text of the
    empty key only.  In [sample] timestamps are rendered as decimal
    numerals.  In [sample_iso] the date-time helper behaves as an ISO
    formatter does on a small range: a time within the first second of the
    epoch is rendered as ISO 8601 text, any other throws as an invalid time
    value does. *)
Definition sample_hash (fields : list Field) : Field :=
  fold_left (fun acc f => Fp (acc * 31 + f + 1)%Z) fields 0%Z.

Definition sample_toBase58 (pk : PublicKey) : string :=
  "key" ++ Field_toString (x pk) ++ (if isOdd pk then "o" else "e").

Definition sample_fromBase58 (s : string) : completion PublicKey :=
  if String.eqb s (sample_toBase58 PublicKey_empty)
  then Normal PublicKey_empty
  else Throw (Error "Invalid base58 public key").

Definition sample : Collaborators :=
  {| Poseidon_hash := sample_hash;
     PublicKey_fromBase58 := sample_fromBase58;
     PublicKey_toBase58 := sample_toBase58;
     UTCDateTime_toString := fun f => Normal (Field_toString f) |}.

Definition three_digits (n : Z) : string :=
  let d := Js.decimal n in
  match String.length d with
  | 1%nat => ("00" ++ d)%string
  | 2%nat => ("0" ++ d)%string
  | _ => d
  end.

Definition sample_iso_toString (f : Field) : completion string :=
  if (f <? 1000)%Z
  then Normal ("1970-01-01T00:00:00." ++ three_digits f ++ "Z")%string
  else Throw (RangeError "Invalid time value").

Definition sample_iso : Collaborators :=
  {| Poseidon_hash := sample_hash;
     PublicKey_fromBase58 := sample_fromBase58;
     PublicKey_toBase58 := sample_toBase58;
     UTCDateTime_toString := sample_iso_toString |}.

(** A JSON object holding a [uid] only. *)
Definition only_uid (uid : string) : Json.t :=
  {| Json.uid := uid;
     Json.fullName := None;
     Json.description := None;
     Json.accountId := None;
     Json.state := None;
     Json.createdUTC := None;
     Json.approvedUTC := None;
     Json.updatedUTC := None;
     Json.validators := None;
     Json.auditors := None;
     Json.admins := None;
     Json.plans := None |}.

(** [json] with its [admins] replaced. *)
Definition with_admins (l : list string) (json : Json.t) : Json.t :=
  {| Json.uid := Json.uid json;
     Json.fullName := Json.fullName json;
     Json.description := Json.description json;
     Json.accountId := Json.accountId json;
     Json.state := Json.state json;
     Json.createdUTC := Json.createdUTC json;
     Json.approvedUTC := Json.approvedUTC json;
     Json.updatedUTC := Json.updatedUTC json;
     Json.validators := Json.validators json;
     Json.auditors := Json.auditors json;
     Json.admins := Some l;
     Json.plans := Json.plans json |}.

(** [json] with its [fullName] replaced. *)
Definition with_fullName (text : string) (json : Json.t) : Json.t :=
  {| Json.uid := Json.uid json;
     Json.fullName := Some text;
     Json.description := Json.description json;
     Json.accountId := Json.accountId json;
     Json.state := Json.state json;
     Json.createdUTC := Json.createdUTC json;
     Json.approvedUTC := Json.approvedUTC json;
     Json.updatedUTC := Json.updatedUTC json;
     Json.validators := Json.validators json;
     Json.auditors := Json.auditors json;
     Json.admins := Json.admins json;
     Json.plans := Json.plans json |}.

(** The letter [a], [n] times. *)
Definition letters (n : nat) : string :=
  string_of_list_ascii (repeat "a"%char n).

(** Inputs used in the runs below. *)
Definition example_timestamps : Json.t :=
  {| Json.uid := "1";
     Json.fullName := None;
     Json.description := None;
     Json.accountId := None;
     Json.state := None;
     Json.createdUTC := Some "5";
     Json.approvedUTC := Some "3";
     Json.updatedUTC := Some "7";
     Json.validators := None;
     Json.auditors := None;
     Json.admins := None;
     Json.plans := None |}.


Definition example_not_base58 : Json.t :=
  {| Json.uid := "1";
     Json.fullName := None;
     Json.description := None;
     Json.accountId := Some "not-base58";
     Json.state := None;
     Json.createdUTC := None;
     Json.approvedUTC := None;
     Json.updatedUTC := None;
     Json.validators := None;
     Json.auditors := None;
     Json.admins := None;
     Json.plans := None |}.

(** ** What [fromJSON] returns

    The value [fromJSON] returns on an object, written without the
    intermediate assignments: each coercion in the order of the statements,
    the second timestamp coercion feeding the third.  [fromJSON_object]
    below relates it to the method. *)
Definition fromJSON_outcome {collaborators : Collaborators}
  (json : Json.t) (this : _Community_) : completion _Community_ :=
  Js.bind (Field_of_string (Json.uid json)) (fun uid' =>
  Js.bind (asPublicKey (Json.accountId json) (Some (accountId this)))
    (fun accountId' =>
  Js.bind (asCircuitString (Json.fullName json) (fullName this))
    (fun fullName' =>
  Js.bind (asCircuitString (Json.description json) (description this))
    (fun description' =>
  Js.bind (asCircuitString (Json.state json) (state this)) (fun state' =>
  Js.bind (asField (Json.approvedUTC json) (approvedUTC this))
    (fun approvedUTC' =>
  Js.bind (asField (Json.createdUTC json) (createdUTC this))
    (fun createdUTC' =>
  Js.bind (asField (Json.updatedUTC json) createdUTC') (fun createdUTC'' =>
  Js.bind (asArray (Json.admins json) (admins this)) (fun admins' =>
  Js.bind (asArray (Json.validators json) (validators this))
    (fun validators' =>
  Js.bind (asArray (Json.auditors json) (auditors this)) (fun auditors' =>
  Js.bind (asArray (Json.plans json) (plans this)) (fun plans' =>
  Normal
    {| uid := Some uid';
       accountId := accountId';
       fullName := fullName';
       description := description';
       state := state';
       createdUTC := createdUTC'';
       updatedUTC := updatedUTC this;
       approvedUTC := approvedUTC';
       admins := admins';
       validators := validators';
       auditors := auditors';
       plans := plans' |})))))))))))).

(** ** Vocabulary of the properties *)

(** The text a [CircuitString] holds is within the framework's maximum. *)
Definition within_maxLength (cs : CircuitString) : Prop :=
  (String.length (CircuitString_toString cs) <= maxLength)%nat.

Definition text_fields_bounded (this : _Community_) : Prop :=
  within_maxLength (fullName this)
  /\ within_maxLength (description this)
  /\ within_maxLength (state this).

(** The [CircuitString] of a text that fits. *)
Definition CircuitString_of (text : string) : CircuitString :=
  CircuitString_fromCharacters
    (List.map Character_fromString (list_ascii_of_string text)).

(** [e] is the exception a parsing primitive throws on one of the
    properties of [json]: [Field] on the [uid], on a timestamp or on an
    entry of an identifier list, [PublicKey.fromBase58] on the
    [accountId]. *)
Definition parse_failure {collaborators : Collaborators}
  (json : Json.t) (e : exn) : Prop :=
  Field_of_string (Json.uid json) = Throw e
  \/ (exists s, Json.accountId json = Some s
                /\ PublicKey_fromBase58 s = Throw e)
  \/ (exists s, (Json.approvedUTC json = Some s
                 \/ Json.createdUTC json = Some s
                 \/ Json.updatedUTC json = Some s)
                /\ Field_of_string s = Throw e)
  \/ (exists l t, (Json.admins json = Some l
                   \/ Json.validators json = Some l
                   \/ Json.auditors json = Some l
                   \/ Json.plans json = Some l)
                  /\ In t l /\ Field_of_string t = Throw e).

(** [json] holds a malformed [uid], key, timestamp or identifier. *)
Definition malformed {collaborators : Collaborators} (json : Json.t) : Prop :=
  exists e, parse_failure json e.

(** Decimal digits, for the numerals [toString] prints. *)
Definition decimal_digit (c : ascii) : bool :=
  let n := nat_of_ascii c in ((48 <=? n) && (n <=? 57))%nat.

Fixpoint decimal_digits (s : string) : bool :=
  match s with
  | "" => true
  | String c rest => decimal_digit c && decimal_digits rest
  end.

(** A field element in canonical form. *)
Definition in_range (f : Field) : Prop := (0 <= f < p)%Z.

(** Well-formed properties of an input object, each with respect to the
    pair of conversions the class applies to it: parsing the text and
    printing the value give the text back. *)
Definition canonical (s : string) : Prop :=
  exists f, Field_of_string s = Normal f /\ Field_toString f = s.


Definition printable_text (s : string) : Prop :=
  forallb printable (list_ascii_of_string s) = true.



(** The field elements of a Community with uid [u], in the declared order
    of the fields. *)
Definition declared_order (u : Field) (this : _Community_) : list Field :=
  [u]
  ++ [x (accountId this); Bool_toField (isOdd (accountId this))]
  ++ List.map value (values (fullName this))
  ++ List.map value (values (description this))
  ++ List.map value (values (state this))
  ++ [approvedUTC this; createdUTC this; updatedUTC this]
  ++ admins this
  ++ validators this
  ++ auditors this
  ++ plans this.

(** [c'] is [c] with the value of exactly one field replaced by a different
    one. *)
Inductive one_field_changed : _Community_ -> _Community_ -> Prop :=
| changed_uid c v :
    uid c <> Some v -> one_field_changed c (set_uid v c)
| changed_accountId c v :
    v <> accountId c -> one_field_changed c (set_accountId v c)
| changed_fullName c v :
    v <> fullName c -> one_field_changed c (set_fullName v c)
| changed_description c v :
    v <> description c -> one_field_changed c (set_description v c)
| changed_state c v :
    v <> state c -> one_field_changed c (set_state v c)
| changed_approvedUTC c v :
    v <> approvedUTC c -> one_field_changed c (set_approvedUTC v c)
| changed_createdUTC c v :
    v <> createdUTC c -> one_field_changed c (set_createdUTC v c)
| changed_updatedUTC c v :
    v <> updatedUTC c -> one_field_changed c (set_updatedUTC v c)
| changed_admins c v :
    v <> admins c -> one_field_changed c (set_admins v c)
| changed_validators c v :
    v <> validators c -> one_field_changed c (set_validators v c)
| changed_auditors c v :
    v <> auditors c -> one_field_changed c (set_auditors v c)
| changed_plans c v :
    v <> plans c -> one_field_changed c (set_plans v c).

(** ** Vocabulary of the further properties *)

(** [json] with its [createdUTC] replaced. *)
Definition with_createdUTC (text : string) (json : Json.t) : Json.t :=
  {| Json.uid := Json.uid json;
     Json.fullName := Json.fullName json;
     Json.description := Json.description json;
     Json.accountId := Json.accountId json;
     Json.state := Json.state json;
     Json.createdUTC := Some text;
     Json.approvedUTC := Json.approvedUTC json;
     Json.updatedUTC := Json.updatedUTC json;
     Json.validators := Json.validators json;
     Json.auditors := Json.auditors json;
     Json.admins := Json.admins json;
     Json.plans := Json.plans json |}.

(** A [CircuitString] holds exactly [maxLength] characters, padding
    included. *)
Definition padded (cs : CircuitString) : Prop :=
  List.length (values cs) = maxLength.

Definition text_fields_padded (this : _Community_) : Prop :=
  padded (fullName this) /\ padded (description this) /\ padded (state this).

(** The entries of the four identifier lists are canonical field
    elements. *)
Definition identifiers_in_range (this : _Community_) : Prop :=
  Forall in_range (admins this) /\ Forall in_range (validators this)
  /\ Forall in_range (auditors this) /\ Forall in_range (plans this).

(** The printable characters of a text, in their order. *)
Definition printable_part (text : string) : string :=
  string_of_list_ascii (List.filter printable (list_ascii_of_string text)).

(** What [hash] puts before the four lists: the fields of fixed size. *)
Definition fixed_part (u : Field) (this : _Community_) : list Field :=
  [u]
  ++ [x (accountId this); Bool_toField (isOdd (accountId this))]
  ++ List.map value (values (fullName this))
  ++ List.map value (values (description this))
  ++ List.map value (values (state this))
  ++ [approvedUTC this; createdUTC this; updatedUTC this].

(* ===================================================================== *)
(** * Properties *)
(* ===================================================================== *)

Example BigInt_decimal : Js.BigInt "1685000000000" = Normal 1685000000000%Z.
Proof. reflexivity. Qed.

Example BigInt_spaces : Js.BigInt "  42 " = Normal 42%Z.
Proof. reflexivity. Qed.

Example BigInt_hex : Js.BigInt "0x1F" = Normal 31%Z.
Proof. reflexivity. Qed.

Example BigInt_negative : Js.BigInt "-5" = Normal (-5)%Z.
Proof. reflexivity. Qed.

Example BigInt_empty : Js.BigInt "" = Normal 0%Z.
Proof. reflexivity. Qed.

Example BigInt_rejects_text :
  Js.BigInt "abc" = Throw (SyntaxError "Cannot convert abc to a BigInt").
Proof. reflexivity. Qed.

Example BigInt_rejects_fraction :
  Js.BigInt "1.5" = Throw (SyntaxError "Cannot convert 1.5 to a BigInt").
Proof. reflexivity. Qed.

Example decimal_7 : Js.decimal 7 = "7".
Proof. reflexivity. Qed.

Example p_is_the_Pallas_base_field_order :
  p = (2 ^ 254 + 0x224698fc094cf91b992d30ed00000001)%Z.
Proof. reflexivity. Qed.

Example field_initialisers_run :
  forall (collaborators : Collaborators), field_initialisers = Normal fresh.
Proof. reflexivity. Qed.

(** ** The factory *)

Section Factory.

Context {collaborators : Collaborators}.

(** C1. Whatever [params] is, the factory [Community(params)] throws: the
    constructor it calls without an argument runs [fromJSON] on [undefined],
    whose first statement reads [json.uid].  No instance is returned, and
    the exception is the [TypeError] of that read, so the factory's own
    [fromJSON(params)] is never evaluated. *)
Theorem Community_always_throws :
  forall params : any,
    (forall this : _Community_,
       fromJSON undefined this =
       (Throw (TypeError
                 "Cannot read properties of undefined (reading 'uid')"),
        this))
    /\ constructor undefined =
       Throw (TypeError "Cannot read properties of undefined (reading 'uid')")
    /\ Community params =
       Throw (TypeError "Cannot read properties of undefined (reading 'uid')")
    /\ (forall c : _Community_, Community params <> Normal c).
Proof.
  intro params. repeat split; try reflexivity.
  intros c H. discriminate H.
Qed.

End Factory.

(** ** [fromJSON] on an object *)

Section FromJSON.

Context {collaborators : Collaborators}.

Lemma bind_Normal {A B : Type} (c : completion A) (k : A -> completion B)
  (b : B) :
  Js.bind c k = Normal b -> exists a, c = Normal a /\ k a = Normal b.
Proof.
  destruct c as [a|e]; simpl; intro H; [eauto | discriminate].
Qed.

Lemma bind_Throw {A B : Type} (c : completion A) (k : A -> completion B)
  (e : exn) :
  Js.bind c k = Throw e ->
  c = Throw e \/ exists a, c = Normal a /\ k a = Throw e.
Proof.
  destruct c as [a|e']; simpl; intro H;
    [right; eauto | left; injection H as ->; reflexivity].
Qed.

(** One statement of [fromJSON]: either its coercion throws, and both
    readings stop there, or the run goes on. *)
Ltac next_statement c :=
  destruct c; simpl; [|split; [reflexivity | discriminate]].

(** The method and its functional reading agree: same completion, and on a
    normal return the object is the value returned ([return this]). *)
Lemma fromJSON_object (json : Json.t) (this : _Community_) :
  fst (fromJSON (object json) this) = fromJSON_outcome json this
  /\ (forall c, fromJSON_outcome json this = Normal c ->
                snd (fromJSON (object json) this) = c).
Proof.
  unfold fromJSON, fromJSON_outcome, seq, eval, read, assign. simpl.
  next_statement (Field_of_string (Json.uid json)).
  next_statement (asPublicKey (Json.accountId json) (Some (accountId this))).
  next_statement (asCircuitString (Json.fullName json) (fullName this)).
  next_statement (asCircuitString (Json.description json) (description this)).
  next_statement (asCircuitString (Json.state json) (state this)).
  next_statement (asField (Json.approvedUTC json) (approvedUTC this)).
  destruct (asField (Json.createdUTC json) (createdUTC this)) as [cr|]; simpl;
    [|split; [reflexivity | discriminate]].
  next_statement (asField (Json.updatedUTC json) cr).
  next_statement (asArray (Json.admins json) (admins this)).
  next_statement (asArray (Json.validators json) (validators this)).
  next_statement (asArray (Json.auditors json) (auditors this)).
  next_statement (asArray (Json.plans json) (plans this)).
  split; [reflexivity|]. intros c H. injection H as <-. reflexivity.
Qed.

End FromJSON.

(** ** Text: [asCircuitString] *)

Section Text.

Lemma or_empty_id (s : string) : Js.or_empty s = s.
Proof.
  unfold Js.or_empty. destruct (String.eqb s "") eqn:E; [|reflexivity].
  apply String.eqb_eq in E. now subst.
Qed.

Lemma substring_from_0 (s : string) (n : nat) :
  Js.substring s 0 n = String.substring 0 n s.
Proof.
  unfold Js.substring.
  now rewrite Nat.min_0_l, Nat.max_0_l, Nat.sub_0_r.
Qed.

Lemma length_substring_0 (n : nat) (s : string) :
  String.length (String.substring 0 n s) = Nat.min n (String.length s).
Proof.
  revert s. induction n as [|n IH]; intros [|c s]; simpl; auto.
Qed.

Lemma substring_0_all (s : string) :
  String.substring 0 (String.length s) s = s.
Proof. induction s as [|c s IH]; simpl; [reflexivity | now rewrite IH]. Qed.

Lemma substring_0_split (n : nat) (s : string) :
  s = (String.substring 0 n s
       ++ String.substring n (String.length s - n) s)%string.
Proof.
  revert s. induction n as [|n IH]; intros s.
  - rewrite Nat.sub_0_r, substring_0_all. now destruct s.
  - destruct s as [|c s]; simpl; [reflexivity|]. now rewrite <- IH.
Qed.

Lemma length_append (s1 s2 : string) :
  String.length (s1 ++ s2)%string
  = (String.length s1 + String.length s2)%nat.
Proof. induction s1 as [|c s1 IH]; simpl; [reflexivity | now rewrite IH]. Qed.

Lemma length_1 (s : string) :
  String.length s = 1%nat -> exists c : ascii, s = String c "".
Proof.
  destruct s as [|c [|c' s]]; simpl; try discriminate. intros _. now exists c.
Qed.

Lemma CircuitString_fromString_fits (text : string) :
  (String.length text <= maxLength)%nat ->
  CircuitString_fromString text = Normal (CircuitString_of text).
Proof.
  intro H. unfold CircuitString_fromString.
  destruct (Nat.ltb_spec maxLength (String.length text)); [lia | reflexivity].
Qed.

Lemma asCircuitString_Some (s : string) (defaulted : CircuitString) :
  asCircuitString (Some s) defaulted =
  Normal (CircuitString_of (String.substring 0 (maxLength - 1) s)).
Proof.
  unfold asCircuitString.
  rewrite or_empty_id, substring_from_0.
  apply CircuitString_fromString_fits.
  rewrite length_substring_0. lia.
Qed.

(** C10. For every string [s], [asCircuitString] stores
    [CircuitString.fromString] of [s.substring(0, maxLength - 1)]: the text
    kept has [min (length s) (maxLength - 1)] characters, so never more
    than [maxLength - 1], and a string of exactly [maxLength] characters is
    stored without its last character. *)
Theorem asCircuitString_keeps_maxLength_minus_1 :
  forall (s : string) (defaulted : CircuitString),
    let kept := Js.substring s 0 (maxLength - 1) in
    asCircuitString (Some s) defaulted = CircuitString_fromString kept
    /\ asCircuitString (Some s) defaulted = Normal (CircuitString_of kept)
    /\ String.length kept = Nat.min (String.length s) (maxLength - 1)
    /\ (String.length kept <= maxLength - 1)%nat
    /\ (String.length s = maxLength ->
        exists last : ascii, s = (kept ++ String last "")%string).
Proof.
  intros s defaulted kept. subst kept. rewrite substring_from_0.
  assert (L : String.length (String.substring 0 (maxLength - 1) s)
              = Nat.min (String.length s) (maxLength - 1)).
  { rewrite length_substring_0. apply Nat.min_comm. }
  split; [|split; [|split; [|split]]].
  - unfold asCircuitString. now rewrite or_empty_id, substring_from_0.
  - apply asCircuitString_Some.
  - exact L.
  - rewrite L. lia.
  - intro Hs.
    pose proof (substring_0_split (maxLength - 1) s) as Split.
    destruct (length_1 (String.substring (maxLength - 1)
                          (String.length s - (maxLength - 1)) s)) as [c Hc].
    + apply (f_equal String.length) in Split.
      rewrite length_append, L, Hs in Split.
      rewrite Hs. unfold maxLength in *. simpl Nat.min in Split. lia.
    + exists c. now rewrite <- Hc.
Qed.

End Text.

(** ** Failures of [fromJSON] *)

Section Failures.

Context {collaborators : Collaborators}.

Lemma map_Throw {A B : Type} (f : A -> completion B) (l : list A) (e : exn) :
  Js.map f l = Throw e -> exists t, In t l /\ f t = Throw e.
Proof.
  induction l as [|a l IH]; simpl; [discriminate|].
  destruct (f a) as [y|e'] eqn:Fa; simpl.
  - destruct (Js.map f l) as [ys|e'']; simpl; [discriminate|].
    intro H. destruct (IH H) as (t & Ht & Ft). exists t. auto.
  - intro H. exists a. split; [now left | congruence].
Qed.

Lemma map_Normal {A B : Type} (f : A -> completion B) (l : list A)
  (r : list B) :
  Js.map f l = Normal r -> Forall2 (fun t y => f t = Normal y) l r.
Proof.
  revert r. induction l as [|a l IH]; simpl; intros r H.
  - injection H as <-. constructor.
  - destruct (f a) as [y|] eqn:Fa; simpl in H; [|discriminate].
    destruct (Js.map f l) as [ys|]; simpl in H; [|discriminate].
    injection H as <-. constructor; auto.
Qed.

Lemma map_Normal_In {A B : Type} (f : A -> completion B) (l : list A)
  (r : list B) (t : A) :
  Js.map f l = Normal r -> In t l -> exists y, f t = Normal y.
Proof.
  intros H. apply map_Normal in H.
  induction H as [|a y l r Fa _ IH]; intros [].
  - subst. eauto.
  - auto.
Qed.

Lemma asCircuitString_returns (s : option string) (d : CircuitString) :
  exists cs, asCircuitString s d = Normal cs.
Proof.
  destruct s as [s|]; [rewrite asCircuitString_Some | simpl]; eauto.
Qed.

Lemma asPublicKey_Throw (o : option string) (d : option PublicKey) (e : exn) :
  asPublicKey o d = Throw e ->
  exists s, o = Some s /\ PublicKey_fromBase58 s = Throw e.
Proof. destruct o as [s|]; simpl; [eauto | discriminate]. Qed.

Lemma asField_Throw (o : option string) (d : Field) (e : exn) :
  asField o d = Throw e -> exists s, o = Some s /\ Field_of_string s = Throw e.
Proof. destruct o as [s|]; simpl; [eauto | discriminate]. Qed.

Lemma asArray_Throw (o : option (list string)) (d : list Field) (e : exn) :
  asArray o d = Throw e ->
  exists l t, o = Some l /\ In t l /\ Field_of_string t = Throw e.
Proof.
  destruct o as [l|]; simpl; [|discriminate].
  intro H. apply map_Throw in H. destruct H as (t & Ht & Ft). eauto.
Qed.

(** The statement that threw is one of the parsing coercions. *)
Ltac thrown_by H :=
  first
    [ apply asPublicKey_Throw in H; destruct H as (s & Hs & H);
      right; left; exists s; now auto
    | apply asField_Throw in H; destruct H as (s & Hs & H);
      right; right; left; exists s; now auto
    | apply asArray_Throw in H; destruct H as (l & t & Hl & Ht & H);
      right; right; right; exists l, t; now auto
    | exfalso;
      match type of H with
      | asCircuitString ?s ?d = _ =>
          destruct (asCircuitString_returns s d); congruence
      end ].

Ltac next_coercion H :=
  apply bind_Throw in H; destruct H as [H | (? & ? & H)]; [thrown_by H|].

Lemma fromJSON_outcome_Throw (json : Json.t) (this : _Community_) (e : exn) :
  fromJSON_outcome json this = Throw e -> parse_failure json e.
Proof.
  unfold fromJSON_outcome, parse_failure. intro H.
  apply bind_Throw in H. destruct H as [H | (? & ? & H)]; [now left|].
  do 11 next_coercion H.
  discriminate H.
Qed.

Lemma fromJSON_outcome_Normal (json : Json.t) (this c : _Community_) :
  fromJSON_outcome json this = Normal c -> ~ malformed json.
Proof.
  unfold fromJSON_outcome. intro H.
  repeat (apply bind_Normal in H; destruct H as (? & ? & H)).
  intros (e & [F | [(s & Hs & F) | [(s & Hs & F) | (l & t & Hl & Ht & F)]]]).
  - congruence.
  - rewrite Hs in *. simpl in *. congruence.
  - destruct Hs as [Hs | [Hs | Hs]]; rewrite Hs in *; simpl in *; congruence.
  - destruct Hl as [Hl | [Hl | [Hl | Hl]]]; rewrite Hl in *; simpl in *;
      match goal with
      | M : Js.map _ l = Normal _ |- _ =>
          destruct (map_Normal_In _ _ _ t M Ht); congruence
      end.
Qed.

Lemma malformed_outcome (json : Json.t) (this : _Community_) :
  malformed json ->
  exists e, fromJSON_outcome json this = Throw e /\ parse_failure json e.
Proof.
  intro M. destruct (fromJSON_outcome json this) as [c|e] eqn:O.
  - now apply fromJSON_outcome_Normal in O.
  - exists e. split; [reflexivity | now apply fromJSON_outcome_Throw in O].
Qed.

Lemma constructor_object (json : Json.t) :
  constructor (object json) = fromJSON_outcome json fresh.
Proof.
  unfold constructor. change field_initialisers with (Normal fresh).
  unfold Js.bind.
  destruct (fromJSON_object json fresh) as [F S].
  destruct (fromJSON (object json) fresh) as [[c|e] this']; simpl in *.
  - rewrite <- F. f_equal. apply S. now symmetry.
  - exact F.
Qed.

(** C5. An input holding a malformed [uid], a malformed [accountId], a
    malformed timestamp or an identifier list with an entry that is not a
    numeral makes [fromJSON], and so the construction from that input, end
    by throwing: the exception is the very one the parsing primitive threw
    on a property of the input (nothing catches or wraps it), and no object
    is returned.  In particular the exception of [Field] on the [uid] is
    thrown at once, and with a valid [uid] the exception of
    [PublicKey.fromBase58] on the [accountId] is thrown: no default takes
    the place of the key. *)
Theorem malformed_input_fails :
  forall (json : Json.t) (this : _Community_),
    malformed json ->
    (exists e,
        fst (fromJSON (object json) this) = Throw e /\ parse_failure json e)
    /\ (forall c, fst (fromJSON (object json) this) <> Normal c)
    /\ (exists e,
           constructor (object json) = Throw e /\ parse_failure json e)
    /\ (forall c, constructor (object json) <> Normal c)
    /\ (forall e, Field_of_string (Json.uid json) = Throw e ->
                  fst (fromJSON (object json) this) = Throw e)
    /\ (forall u s e,
          Field_of_string (Json.uid json) = Normal u ->
          Json.accountId json = Some s ->
          PublicKey_fromBase58 s = Throw e ->
          fst (fromJSON (object json) this) = Throw e).
Proof.
  intros json this M.
  destruct (malformed_outcome json this M) as (e & O & P).
  destruct (malformed_outcome json fresh M) as (e' & O' & P').
  destruct (fromJSON_object json this) as [F _].
  rewrite F, constructor_object, O'.
  split; [rewrite O; eauto|]. split; [rewrite O; discriminate|].
  split; [eauto|]. split; [discriminate|].
  unfold fromJSON_outcome. split.
  - intros e0 E. now rewrite E.
  - intros u s e0 E A K. rewrite E, A. simpl. now rewrite K.
Qed.

End Failures.

(** ** Text fields stay within the maximum length *)

Section TextFields.

Context {collaborators : Collaborators}.

Lemma p_above_code_units : (256 < p)%Z.
Proof. unfold p. lia. Qed.

Lemma Character_toString_fromString (c : ascii) :
  Character_toString (Character_fromString c) = c.
Proof.
  unfold Character_toString, Character_fromString, Field_of_number, Fp.
  simpl value.
  pose proof (N_ascii_bounded c) as B. pose proof p_above_code_units.
  rewrite Z.mod_small by lia.
  now rewrite N2Z.id, ascii_N_embedding.
Qed.

Lemma NullCharacter_not_printable :
  printable (Character_toString NullCharacter) = false.
Proof. reflexivity. Qed.

Lemma filter_printable_nulls (n : nat) :
  List.filter printable
    (List.map Character_toString (repeat NullCharacter n)) = [].
Proof.
  induction n as [|n IH]; [reflexivity|].
  cbn [repeat List.map List.filter].
  now rewrite NullCharacter_not_printable.
Qed.

(** The text of [CircuitString_of text]: the printable characters of
    [text]; the padding is dropped. *)
Lemma CircuitString_toString_of (text : string) :
  CircuitString_toString (CircuitString_of text) =
  string_of_list_ascii (List.filter printable (list_ascii_of_string text)).
Proof.
  unfold CircuitString_toString, CircuitString_of,
    CircuitString_fromCharacters, fillWithNull.
  cbn [values].
  rewrite List.map_app, List.filter_app, filter_printable_nulls, app_nil_r.
  rewrite List.map_map. f_equal. f_equal.
  rewrite <- (List.map_id (list_ascii_of_string text)) at 2.
  apply List.map_ext. intro c. apply Character_toString_fromString.
Qed.

Lemma length_string_of_list_ascii (l : list ascii) :
  String.length (string_of_list_ascii l) = List.length l.
Proof. induction l as [|c l IH]; simpl; [reflexivity | now rewrite IH]. Qed.

Lemma length_list_ascii_of_string (s : string) :
  List.length (list_ascii_of_string s) = String.length s.
Proof. induction s as [|c s IH]; simpl; [reflexivity | now rewrite IH]. Qed.

Lemma length_filter_le {A : Type} (f : A -> bool) (l : list A) :
  (List.length (List.filter f l) <= List.length l)%nat.
Proof.
  induction l as [|a l IH]; simpl; [lia|]. destruct (f a); simpl; lia.
Qed.

Lemma length_toString_of (text : string) :
  (String.length (CircuitString_toString (CircuitString_of text))
   <= String.length text)%nat.
Proof.
  rewrite CircuitString_toString_of, length_string_of_list_ascii.
  rewrite <- length_list_ascii_of_string. apply length_filter_le.
Qed.

Lemma asCircuitString_within (s : option string) (d cs : CircuitString) :
  within_maxLength d ->
  asCircuitString s d = Normal cs ->
  within_maxLength cs.
Proof.
  intros Hd. destruct s as [s|].
  - rewrite asCircuitString_Some. intro H. injection H as <-.
    unfold within_maxLength.
    pose proof (length_toString_of (String.substring 0 (maxLength - 1) s)).
    pose proof (length_substring_0 (maxLength - 1) s).
    unfold maxLength in *. change (128 - 1)%nat with 127%nat in *. lia.
  - simpl. intro H. injection H as <-. exact Hd.
Qed.

Lemma fresh_text_fields_bounded : text_fields_bounded fresh.
Proof.
  unfold text_fields_bounded, within_maxLength.
  repeat split; apply Nat.leb_le; vm_compute; reflexivity.
Qed.

(** C8. [fromJSON] keeps every text field within the framework's maximum
    length: the field initialisers establish the bound, and on an object
    whose text fields respect it, each text coercion returns (an oversized
    text is never an error) a string within the bound, which for a text
    present in the input is the [CircuitString] of its first
    [maxLength - 1] characters; these are the text fields of the object
    [fromJSON] returns, and when [fromJSON] throws, the exception comes from
    a key, a timestamp or an identifier, never from a text. *)
Theorem text_fields_never_exceed_maxLength :
  forall (json : Json.t) (this : _Community_),
    text_fields_bounded this ->
    text_fields_bounded fresh
    /\ (exists fn de st,
           asCircuitString (Json.fullName json) (fullName this) = Normal fn
           /\ asCircuitString (Json.description json) (description this)
              = Normal de
           /\ asCircuitString (Json.state json) (state this) = Normal st
           /\ within_maxLength fn /\ within_maxLength de
           /\ within_maxLength st
           /\ (forall c, fst (fromJSON (object json) this) = Normal c ->
                         fullName c = fn /\ description c = de
                         /\ state c = st /\ text_fields_bounded c))
    /\ (forall s, Json.fullName json = Some s ->
          asCircuitString (Json.fullName json) (fullName this) =
          Normal (CircuitString_of (Js.substring s 0 (maxLength - 1))))
    /\ (forall s, Json.description json = Some s ->
          asCircuitString (Json.description json) (description this) =
          Normal (CircuitString_of (Js.substring s 0 (maxLength - 1))))
    /\ (forall s, Json.state json = Some s ->
          asCircuitString (Json.state json) (state this) =
          Normal (CircuitString_of (Js.substring s 0 (maxLength - 1))))
    /\ (forall e, fst (fromJSON (object json) this) = Throw e ->
                  parse_failure json e).
Proof.
  intros json this (Bfn & Bde & Bst).
  split; [exact fresh_text_fields_bounded|].
  destruct (asCircuitString_returns (Json.fullName json) (fullName this))
    as [fn Hfn].
  destruct (asCircuitString_returns (Json.description json)
              (description this)) as [de Hde].
  destruct (asCircuitString_returns (Json.state json) (state this))
    as [st Hst].
  pose proof (asCircuitString_within _ _ _ Bfn Hfn) as Wfn.
  pose proof (asCircuitString_within _ _ _ Bde Hde) as Wde.
  pose proof (asCircuitString_within _ _ _ Bst Hst) as Wst.
  destruct (fromJSON_object json this) as [F _]. rewrite F.
  split; [|split; [|split; [|split]]].
  - exists fn, de, st. repeat (split; [assumption|]).
    intros c O. unfold fromJSON_outcome in O.
    rewrite Hfn, Hde, Hst in O.
    repeat (apply bind_Normal in O; destruct O as (? & ? & O)).
    injection O as <-. cbn. unfold text_fields_bounded. cbn.
    repeat match goal with
           | E : Normal _ = Normal _ |- _ => injection E as <-
           end.
    repeat split; assumption.
  - intros s E. rewrite E, substring_from_0. apply asCircuitString_Some.
  - intros s E. rewrite E, substring_from_0. apply asCircuitString_Some.
  - intros s E. rewrite E, substring_from_0. apply asCircuitString_Some.
  - intros e O. now apply fromJSON_outcome_Throw in O.
Qed.

End TextFields.

(** ** What [fromJSON] writes *)

Section Frame.

Context {collaborators : Collaborators}.

(** One statement of [fromJSON], for a property of the object it leaves:
    whether the coercion throws or not, the property holds. *)
Ltac statement_keeps c := destruct c; simpl; [|reflexivity].

Lemma fromJSON_keeps_updatedUTC (json : any) (this : _Community_) :
  updatedUTC (snd (fromJSON json this)) = updatedUTC this.
Proof.
  destruct json as [| |json]; [reflexivity | reflexivity |].
  unfold fromJSON, seq, eval, read, assign. simpl.
  statement_keeps (Field_of_string (Json.uid json)).
  statement_keeps (asPublicKey (Json.accountId json) (Some (accountId this))).
  statement_keeps (asCircuitString (Json.fullName json) (fullName this)).
  statement_keeps (asCircuitString (Json.description json) (description this)).
  statement_keeps (asCircuitString (Json.state json) (state this)).
  statement_keeps (asField (Json.approvedUTC json) (approvedUTC this)).
  destruct (asField (Json.createdUTC json) (createdUTC this)) as [cr|]; simpl;
    [|reflexivity].
  statement_keeps (asField (Json.updatedUTC json) cr).
  statement_keeps (asArray (Json.admins json) (admins this)).
  statement_keeps (asArray (Json.validators json) (validators this)).
  statement_keeps (asArray (Json.auditors json) (auditors this)).
  statement_keeps (asArray (Json.plans json) (plans this)).
  reflexivity.
Qed.

(** C3. [fromJSON] never writes [updatedUTC]: whatever the input and the
    outcome, the field is what it was before the call, hence [Field(0)] on
    an object fresh from its initialisers.  When [fromJSON] returns [c] on
    an object [json]: a [json.updatedUTC] that is present has its parsed
    value in [c.createdUTC], in place of the value parsed from
    [json.createdUTC]; without it [c.createdUTC] is the coercion of
    [json.createdUTC]; and every field whose property is absent from
    [json] is left as it was. *)
Theorem fromJSON_never_stores_updatedUTC :
  forall (json : Json.t) (this c : _Community_),
    fst (fromJSON (object json) this) = Normal c ->
    (forall (input : any) (this0 : _Community_),
        updatedUTC (snd (fromJSON input this0)) = updatedUTC this0)
    /\ (forall input : any,
          updatedUTC (snd (fromJSON input fresh)) = Field_of_number 0)
    /\ snd (fromJSON (object json) this) = c
    /\ updatedUTC c = updatedUTC this
    /\ (forall s, Json.updatedUTC json = Some s ->
                  Field_of_string s = Normal (createdUTC c))
    /\ (Json.updatedUTC json = None ->
        asField (Json.createdUTC json) (createdUTC this)
        = Normal (createdUTC c))
    /\ (Json.createdUTC json = None -> Json.updatedUTC json = None ->
        createdUTC c = createdUTC this)
    /\ (Json.accountId json = None -> accountId c = accountId this)
    /\ (Json.fullName json = None -> fullName c = fullName this)
    /\ (Json.description json = None -> description c = description this)
    /\ (Json.state json = None -> state c = state this)
    /\ (Json.approvedUTC json = None -> approvedUTC c = approvedUTC this)
    /\ (Json.admins json = None -> admins c = admins this)
    /\ (Json.validators json = None -> validators c = validators this)
    /\ (Json.auditors json = None -> auditors c = auditors this)
    /\ (Json.plans json = None -> plans c = plans this).
Proof.
  intros json this c H.
  destruct (fromJSON_object json this) as [F S].
  rewrite F in H. specialize (S c H).
  split; [exact fromJSON_keeps_updatedUTC|].
  split; [intro input; apply (fromJSON_keeps_updatedUTC input fresh)|].
  split; [exact S|].
  unfold fromJSON_outcome in H.
  repeat (apply bind_Normal in H; destruct H as (? & ? & H)).
  injection H as <-. cbn.
  repeat split; intros;
    repeat match goal with
           | E : Json.accountId json = _ |- _ => rewrite E in *; clear E
           | E : Json.fullName json = _ |- _ => rewrite E in *; clear E
           | E : Json.description json = _ |- _ => rewrite E in *; clear E
           | E : Json.state json = _ |- _ => rewrite E in *; clear E
           | E : Json.approvedUTC json = _ |- _ => rewrite E in *; clear E
           | E : Json.createdUTC json = _ |- _ => rewrite E in *; clear E
           | E : Json.updatedUTC json = _ |- _ => rewrite E in *; clear E
           | E : Json.admins json = _ |- _ => rewrite E in *; clear E
           | E : Json.validators json = _ |- _ => rewrite E in *; clear E
           | E : Json.auditors json = _ |- _ => rewrite E in *; clear E
           | E : Json.plans json = _ |- _ => rewrite E in *; clear E
           end;
    simpl in *; congruence.
Qed.

(** C4. On an object holding a valid [uid] and nothing else, [fromJSON]
    (and the construction from that object) yields the fresh object with
    its [uid] set: every other field has its declared default, the empty
    key, ["?"], [""], ["INITIAL"], [Field(0)] for the three timestamps and
    four empty lists; [toJSON] renders the account as the base58 text of
    the empty key and each timestamp as the date-time helper renders
    [Field(0)], and throws what the helper throws on [Field(0)]. *)
Theorem only_uid_yields_defaults :
  forall (text : string) (u : Field),
    Field_of_string text = Normal u ->
    let c := set_uid u fresh in
    fromJSON (object (only_uid text)) fresh = (Normal c, c)
    /\ constructor (object (only_uid text)) = Normal c
    /\ uid c = Some u
    /\ accountId c = PublicKey_empty
    /\ CircuitString_fromString "?" = Normal (fullName c)
    /\ CircuitString_fromString "" = Normal (description c)
    /\ CircuitString_fromString "INITIAL" = Normal (state c)
    /\ approvedUTC c = Field_of_number 0
    /\ createdUTC c = Field_of_number 0
    /\ updatedUTC c = Field_of_number 0
    /\ admins c = [] /\ validators c = []
    /\ auditors c = [] /\ plans c = []
    /\ (forall zero : string,
          UTCDateTime_toString (Field_of_number 0) = Normal zero ->
          toJSON c =
          Normal
            {| Plain.uid := Field_toString u;
               Plain.accountId := PublicKey_toBase58 PublicKey_empty;
               Plain.fullName := "?";
               Plain.description := "";
               Plain.state := "INITIAL";
               Plain.approvedUTC := zero;
               Plain.createdUTC := zero;
               Plain.updatedUTC := zero;
               Plain.admins := [];
               Plain.validators := [];
               Plain.auditors := [];
               Plain.plans := [] |})
    /\ (forall e : exn,
          UTCDateTime_toString (Field_of_number 0) = Throw e ->
          toJSON c = Throw e).
Proof.
  intros text u H c.
  assert (R : fromJSON (object (only_uid text)) fresh = (Normal c, c)).
  { unfold fromJSON, seq, eval, read, assign. simpl. rewrite H. reflexivity. }
  split; [exact R|].
  split.
  { unfold constructor. change field_initialisers with (Normal fresh).
    simpl. now rewrite R. }
  repeat (split; [reflexivity|]).
  split.
  - intros zero Z. unfold toJSON. cbn in Z |- *. now rewrite Z.
  - intros e Z. unfold toJSON. cbn in Z |- *. now rewrite Z.
Qed.

End Frame.

(** ** The commitment hash *)

Section Hash.

Context {collaborators : Collaborators}.

Lemma hash_declared_order (this : _Community_) (u : Field) :
  uid this = Some u ->
  hash this = Normal (Poseidon_hash (declared_order u this)).
Proof.
  intro H. unfold hash, uid_of. rewrite H. simpl Js.bind.
  unfold declared_order, Field_toFields, PublicKey_toFields,
    CircuitString_toFields.
  now rewrite <- !app_assoc.
Qed.

(** C6. [hash()] of a Community is the Poseidon hash of one sequence: the
    field elements of [uid], [accountId], [fullName], [description] and
    [state], then [approvedUTC], [createdUTC], [updatedUTC], then the
    entries of [admins], [validators], [auditors] and [plans], in this
    order and each list in its own order. *)
Theorem hash_is_Poseidon_of_the_declared_order :
  forall (this : _Community_) (u : Field),
    uid this = Some u ->
    hash this =
    Normal
      (Poseidon_hash
         (Field_toFields u
          ++ PublicKey_toFields (accountId this)
          ++ CircuitString_toFields (fullName this)
          ++ CircuitString_toFields (description this)
          ++ CircuitString_toFields (state this)
          ++ [approvedUTC this; createdUTC this; updatedUTC this]
          ++ admins this
          ++ validators this
          ++ auditors this
          ++ plans this)).
Proof.
  intros this u H. now rewrite (hash_declared_order this u H).
Qed.

Lemma Bool_toField_inj (b b' : bool) :
  Bool_toField b = Bool_toField b' -> b = b'.
Proof. destruct b, b'; vm_compute; congruence. Qed.

Lemma PublicKey_fields_inj (k k' : PublicKey) :
  [x k; Bool_toField (isOdd k)] = [x k'; Bool_toField (isOdd k')] -> k = k'.
Proof.
  destruct k, k'. cbn [x isOdd]. intro H. injection H as -> B.
  apply Bool_toField_inj in B. now subst.
Qed.

Lemma Character_values_inj (l l' : list Character) :
  List.map value l = List.map value l' -> l = l'.
Proof.
  revert l'. induction l as [|[v] l IH]; intros [|[v'] l']; simpl;
    try discriminate; [reflexivity|].
  intro H. injection H as -> T. now rewrite (IH l' T).
Qed.

Lemma CircuitString_fields_inj (s s' : CircuitString) :
  List.map value (values s) = List.map value (values s') -> s = s'.
Proof.
  destruct s, s'. cbn [values]. intro H.
  now rewrite (Character_values_inj _ _ H).
Qed.

(** Peel the equal fields off the two sequences, down to the one field that
    differs. *)
Ltac peel E :=
  repeat (apply app_inv_head in E);
  try (apply app_inv_tail in E).

Lemma one_field_changed_declared_order (c c' : _Community_) (u u' : Field) :
  one_field_changed c c' -> uid c = Some u -> uid c' = Some u' ->
  declared_order u c <> declared_order u' c'.
Proof.
  intros Ch U U' E.
  destruct Ch as [c v D|c v D|c v D|c v D|c v D|c v D|c v D|c v D
                 |c v D|c v D|c v D|c v D];
    simpl in U'; unfold declared_order in E;
    cbn [uid accountId fullName description state createdUTC updatedUTC
         approvedUTC admins validators auditors plans
         set_uid set_accountId set_fullName set_description set_state
         set_createdUTC set_updatedUTC set_approvedUTC set_admins
         set_validators set_auditors set_plans] in E;
    try (assert (u' = u) by congruence; subst u').
  - apply app_inv_tail in E. congruence.
  - peel E. apply D. symmetry. now apply PublicKey_fields_inj.
  - peel E. apply D. symmetry. now apply CircuitString_fields_inj.
  - peel E. apply D. symmetry. now apply CircuitString_fields_inj.
  - peel E. apply D. symmetry. now apply CircuitString_fields_inj.
  - peel E. congruence.
  - peel E. congruence.
  - peel E. congruence.
  - peel E. congruence.
  - peel E. congruence.
  - peel E. congruence.
  - peel E. congruence.
Qed.

(** C7. [fromJSON] is a function of its input and of the object it runs
    on, so two runs agree; two Communities constructed from the same JSON
    are equal and have equal hashes; [hash()] depends on the values of the
    twelve fields only; and replacing the value of one field by a different
    one (a list by a reordering of it, for instance) changes the sequence
    Poseidon is applied to, so that the two hashes are equal only if
    Poseidon collides on two different sequences. *)
Theorem hash_is_a_function_of_the_fields :
  forall (json : any) (this : _Community_),
    (forall r1 r2,
        fromJSON json this = r1 -> fromJSON json this = r2 -> r1 = r2)
    /\ (forall c1 c2,
          constructor json = Normal c1 -> constructor json = Normal c2 ->
          c1 = c2 /\ hash c1 = hash c2)
    /\ (forall c1 c2,
          uid c1 = uid c2 -> accountId c1 = accountId c2 ->
          fullName c1 = fullName c2 -> description c1 = description c2 ->
          state c1 = state c2 -> approvedUTC c1 = approvedUTC c2 ->
          createdUTC c1 = createdUTC c2 -> updatedUTC c1 = updatedUTC c2 ->
          admins c1 = admins c2 -> validators c1 = validators c2 ->
          auditors c1 = auditors c2 -> plans c1 = plans c2 ->
          hash c1 = hash c2)
    /\ (forall c c',
          uid c <> None -> one_field_changed c c' ->
          exists l l',
            hash c = Normal (Poseidon_hash l)
            /\ hash c' = Normal (Poseidon_hash l')
            /\ l <> l'
            /\ (hash c = hash c' -> Poseidon_hash l = Poseidon_hash l')).
Proof.
  intros json this. split; [|split; [|split]].
  - intros r1 r2 <- <-. reflexivity.
  - intros c1 c2 H1 H2. rewrite H1 in H2. injection H2 as <-. now split.
  - intros [] []. cbn. intros. now subst.
  - intros c c' U Ch.
    destruct (uid c) as [u|] eqn:Eu; [clear U | now contradiction U].
    assert (exists u', uid c' = Some u') as [u' Eu'].
    { destruct Ch; simpl; eauto. }
    exists (declared_order u c), (declared_order u' c').
    rewrite (hash_declared_order c u Eu), (hash_declared_order c' u' Eu').
    repeat split.
    + now apply one_field_changed_declared_order.
    + intro H. now injection H.
Qed.

End Hash.

(** ** The order of an identifier list *)

Section ListOrder.

Context {collaborators : Collaborators}.

(** C9. On [{uid: "1", admins: ["2","3"]}], [fromJSON] stores the field
    elements 2 and 3 in this order ([asArray] maps each entry at its
    position) and [toJSON], which returns when the date-time helper
    renders [Field(0)], renders them back as [["2","3"]].  With the
    reversed list the sequence handed to Poseidon has the same length and
    differs, so the two results of [hash()] are the Poseidon hashes of two
    different sequences: they differ unless Poseidon collides on these. *)
Theorem admins_keep_their_order :
  let json23 := with_admins ["2"; "3"] (only_uid "1") in
  let json32 := with_admins ["3"; "2"] (only_uid "1") in
  let c23 :=
    set_admins [Field_of_number 2; Field_of_number 3]
      (set_uid (Field_of_number 1) fresh) in
  let c32 :=
    set_admins [Field_of_number 3; Field_of_number 2]
      (set_uid (Field_of_number 1) fresh) in
  fromJSON (object json23) fresh = (Normal c23, c23)
  /\ fromJSON (object json32) fresh = (Normal c32, c32)
  /\ (forall (l : list string) (d r : list Field),
         asArray (Some l) d = Normal r ->
         Forall2 (fun t f => Field_of_string t = Normal f) l r)
  /\ (forall zero : string,
        UTCDateTime_toString (Field_of_number 0) = Normal zero ->
        exists out, toJSON c23 = Normal out /\ Plain.admins out = ["2"; "3"])
  /\ (forall out, toJSON c23 = Normal out -> Plain.admins out = ["2"; "3"])
  /\ (forall zero : string,
        UTCDateTime_toString (Field_of_number 0) = Normal zero ->
        exists out, toJSON c32 = Normal out /\ Plain.admins out = ["3"; "2"])
  /\ (forall out, toJSON c32 = Normal out -> Plain.admins out = ["3"; "2"])
  /\ (exists l23 l32,
         hash c23 = Normal (Poseidon_hash l23)
         /\ hash c32 = Normal (Poseidon_hash l32)
         /\ List.length l23 = List.length l32
         /\ l23 <> l32
         /\ (hash c23 = hash c32 -> Poseidon_hash l23 = Poseidon_hash l32)
         /\ (Poseidon_hash l23 <> Poseidon_hash l32 ->
             hash c23 <> hash c32)).
Proof.
  intros json23 json32 c23 c32.
  split; [reflexivity|]. split; [reflexivity|].
  split; [intros l d r H; now apply map_Normal|].
  assert (T : forall c : _Community_,
             uid c = Some (Field_of_number 1) ->
             approvedUTC c = Field_of_number 0 ->
             createdUTC c = Field_of_number 0 ->
             updatedUTC c = Field_of_number 0 ->
             (forall zero : string,
                 UTCDateTime_toString (Field_of_number 0) = Normal zero ->
                 exists out,
                   toJSON c = Normal out
                   /\ Plain.admins out = List.map Field_toString (admins c))
             /\ (forall out, toJSON c = Normal out ->
                   Plain.admins out = List.map Field_toString (admins c))).
  { intros c U A C P. unfold toJSON, uid_of. rewrite U, A, C, P.
    cbn [Js.bind]. split.
    - intros zero Z. rewrite Z. cbn [Js.bind]. eexists. split; reflexivity.
    - intro out. destruct (UTCDateTime_toString (Field_of_number 0));
        cbn [Js.bind]; intro H; [|discriminate H].
      now injection H as <-. }
  destruct (T c23 eq_refl eq_refl eq_refl eq_refl) as [T23 T23'].
  destruct (T c32 eq_refl eq_refl eq_refl eq_refl) as [T32 T32'].
  split; [exact T23|]. split; [exact T23'|].
  split; [exact T32|]. split; [exact T32'|].
  exists (declared_order (Field_of_number 1) c23),
         (declared_order (Field_of_number 1) c32).
  rewrite (hash_declared_order c23 (Field_of_number 1) eq_refl).
  rewrite (hash_declared_order c32 (Field_of_number 1) eq_refl).
  split; [reflexivity|]. split; [reflexivity|]. split; [reflexivity|].
  split; [|split].
  - apply one_field_changed_declared_order; try reflexivity.
    apply (changed_admins c23 [Field_of_number 3; Field_of_number 2]).
    vm_compute. discriminate.
  - intro H. now injection H.
  - intros D H. apply D. now injection H.
Qed.

End ListOrder.

(** ** Numerals: [Field(f.toString())] *)

Section Numerals.

Lemma decimal_digit_facts (c : ascii) :
  decimal_digit c = true ->
  Js.StrWhiteSpaceChar c = false
  /\ Ascii.eqb c "+" = false
  /\ Ascii.eqb c "-" = false
  /\ Js.radix_of_prefix c = None.
Proof.
  destruct c as [[] [] [] [] [] [] [] []]; cbv; intro H;
    try discriminate H; repeat split.
Qed.

Lemma string_of_uint_digits (d : Decimal.uint) :
  decimal_digits (NilEmpty.string_of_uint d) = true.
Proof. induction d; simpl; auto. Qed.

Lemma trimStart_digits (s : string) :
  decimal_digits s = true -> Js.trimStart s = s.
Proof.
  destruct s as [|c s]; [reflexivity|]. simpl. intro H.
  apply andb_prop in H. destruct H as [H _].
  apply decimal_digit_facts in H. destruct H as [-> _]. reflexivity.
Qed.

Lemma trimEnd_digits (s : string) :
  decimal_digits s = true -> Js.trimEnd s = s.
Proof.
  induction s as [|c s IH]; [reflexivity|]. simpl. intro H.
  apply andb_prop in H. destruct H as [H T].
  apply decimal_digit_facts in H. destruct H as [-> _].
  now rewrite (IH T).
Qed.

Lemma StrIntegerLiteral_digits (s : string) :
  decimal_digits s = true -> Js.StrIntegerLiteral s = Js.DecimalDigits s.
Proof.
  destruct s as [|c0 [|c1 s]]; try reflexivity.
  cbn [decimal_digits]. intro H.
  apply andb_prop in H. destruct H as [H0 H].
  apply andb_prop in H. destruct H as [H1 _].
  apply decimal_digit_facts in H0. destruct H0 as (_ & P & M & _).
  apply decimal_digit_facts in H1. destruct H1 as (_ & _ & _ & R).
  unfold Js.StrIntegerLiteral. rewrite R, P, M.
  now destruct (Ascii.eqb c0 "0").
Qed.

Lemma BigInt_decimal_numeral (n : Z) :
  (0 <= n)%Z -> Js.BigInt (Js.decimal n) = Normal n.
Proof.
  intro H. unfold Js.BigInt, Js.StringToBigInt, Js.decimal, Js.trim.
  set (d := N.to_uint (Z.to_N n)).
  assert (Nn : d <> Decimal.Nil).
  { subst d. destruct (Z.to_N n); simpl; [discriminate|].
    apply DecimalPos.Unsigned.to_uint_nonnil. }
  assert (E : NilZero.string_of_uint d = NilEmpty.string_of_uint d).
  { destruct d; [now contradiction Nn | reflexivity..]. }
  pose proof (string_of_uint_digits d) as D. rewrite <- E in D.
  rewrite (trimStart_digits _ D), (trimEnd_digits _ D).
  assert (NE : String.eqb (NilZero.string_of_uint d) "" = false).
  { rewrite E. destruct d; [now contradiction Nn | reflexivity..]. }
  rewrite NE, (StrIntegerLiteral_digits _ D).
  unfold Js.DecimalDigits. rewrite (NilZero.usu d Nn). simpl option_map.
  unfold Z.of_uint. subst d.
  change (Pos.of_uint (N.to_uint (Z.to_N n)))
    with (N.of_uint (N.to_uint (Z.to_N n))).
  rewrite DecimalN.Unsigned.of_to. now rewrite Z2N.id.
Qed.

Lemma Field_of_string_toString (f : Field) :
  in_range f -> Field_of_string (Field_toString f) = Normal f.
Proof.
  intros [L U]. unfold Field_of_string, Field_toString.
  rewrite (BigInt_decimal_numeral f L). simpl. unfold Fp.
  now rewrite Z.mod_small.
Qed.

Lemma Field_of_string_in_range (s : string) (f : Field) :
  Field_of_string s = Normal f -> in_range f.
Proof.
  unfold Field_of_string. destruct (Js.BigInt s) as [n|]; simpl;
    [|discriminate].
  intro H. injection H as <-. apply Z.mod_pos_bound. unfold p. lia.
Qed.

(** The canonical texts are the decimal numerals of the field elements. *)
Lemma canonical_iff_numeral (s : string) :
  canonical s <-> exists f, in_range f /\ s = Field_toString f.
Proof.
  split.
  - intros (f & E & T). exists f. split; [|now symmetry].
    exact (Field_of_string_in_range s f E).
  - intros (f & R & ->). exists f. split; [|reflexivity].
    exact (Field_of_string_toString f R).
Qed.

Lemma map_Field_of_string_toString (l : list Field) :
  Forall in_range l ->
  Js.map Field_of_string (List.map Field_toString l) = Normal l.
Proof.
  induction 1 as [|f l R _ IH]; simpl; [reflexivity|].
  now rewrite (Field_of_string_toString f R), IH.
Qed.

End Numerals.

(** ** Round trips between [fromJSON] and [toJSON] *)

Section RoundTrip.

Context {collaborators : Collaborators}.

Lemma filter_all {A : Type} (f : A -> bool) (l : list A) :
  forallb f l = true -> List.filter f l = l.
Proof.
  induction l as [|a l IH]; simpl; [reflexivity|]. intro H.
  apply andb_prop in H. destruct H as [-> T]. now rewrite (IH T).
Qed.


Lemma substring_0_ge (n : nat) (s : string) :
  (String.length s <= n)%nat -> String.substring 0 n s = s.
Proof.
  revert s. induction n as [|n IH]; intros [|c s]; simpl; try reflexivity.
  - lia.
  - intro H. rewrite IH; [reflexivity | lia].
Qed.

Lemma toString_of_printable (text : string) :
  printable_text text ->
  CircuitString_toString (CircuitString_of text) = text.
Proof.
  intro H. rewrite CircuitString_toString_of, (filter_all _ _ H).
  apply string_of_list_ascii_of_string.
Qed.



(** What [toJSON] returns when it returns. *)
Lemma toJSON_Normal (c : _Community_) (out : Plain.t) :
  toJSON c = Normal out ->
  exists u ap cr up,
    uid c = Some u
    /\ UTCDateTime_toString (approvedUTC c) = Normal ap
    /\ UTCDateTime_toString (createdUTC c) = Normal cr
    /\ UTCDateTime_toString (updatedUTC c) = Normal up
    /\ out =
       {| Plain.uid := Field_toString u;
          Plain.accountId := PublicKey_toBase58 (accountId c);
          Plain.fullName := CircuitString_toString (fullName c);
          Plain.description := CircuitString_toString (description c);
          Plain.state := CircuitString_toString (state c);
          Plain.approvedUTC := ap;
          Plain.createdUTC := cr;
          Plain.updatedUTC := up;
          Plain.admins := List.map Field_toString (admins c);
          Plain.validators := List.map Field_toString (validators c);
          Plain.auditors := List.map Field_toString (auditors c);
          Plain.plans := List.map Field_toString (plans c) |}.
Proof.
  unfold toJSON, uid_of. destruct (uid c) as [u|]; [|discriminate].
  cbn [Js.bind]. intro H.
  apply bind_Normal in H. destruct H as (ap & Eap & H).
  apply bind_Normal in H. destruct H as (cr & Ecr & H).
  apply bind_Normal in H. destruct H as (up & Eup & H).
  injection H as <-. exists u, ap, cr, up. repeat split; assumption.
Qed.

(** [toJSON] throws on an object with a [uid] only what the date-time
    helper throws on one of the three timestamps. *)
Lemma toJSON_Throw (c : _Community_) (u : Field) (e : exn) :
  uid c = Some u ->
  toJSON c = Throw e ->
  UTCDateTime_toString (approvedUTC c) = Throw e
  \/ UTCDateTime_toString (createdUTC c) = Throw e
  \/ UTCDateTime_toString (updatedUTC c) = Throw e.
Proof.
  intro U. unfold toJSON, uid_of. rewrite U. cbn [Js.bind].
  destruct (UTCDateTime_toString (approvedUTC c)); cbn [Js.bind];
    [|intro H; left; now injection H as ->].
  destruct (UTCDateTime_toString (createdUTC c)); cbn [Js.bind];
    [|intro H; right; left; now injection H as ->].
  destruct (UTCDateTime_toString (updatedUTC c)); cbn [Js.bind];
    [discriminate | intro H; right; right; now injection H as ->].
Qed.




End RoundTrip.


(* ===================================================================== *)
(** * Runs on concrete inputs *)
(* ===================================================================== *)

(** Each run instantiates a theorem above at an input, with the sample
    collaborators where the theorem takes collaborators, and discharges its
    hypotheses by computation. *)


Lemma fromJSON_never_stores_updatedUTC_run :
  let c :=
    set_createdUTC (Field_of_number 7)
      (set_approvedUTC (Field_of_number 3)
         (set_uid (Field_of_number 1) fresh)) in
  fst (@fromJSON sample (object example_timestamps) fresh) = Normal c
  /\ updatedUTC c = Field_of_number 0
  /\ Field_of_string "7" = Normal (createdUTC c).
Proof.
  cbv zeta.
  assert (H : fst (@fromJSON sample (object example_timestamps) fresh)
              = Normal (set_createdUTC (Field_of_number 7)
                          (set_approvedUTC (Field_of_number 3)
                             (set_uid (Field_of_number 1) fresh)))).
  { vm_compute. reflexivity. }
  destruct (@fromJSON_never_stores_updatedUTC sample _ _ _ H)
    as (_ & _ & _ & U & C & _).
  split; [exact H|]. split; [exact U|]. exact (C "7" eq_refl).
Defined.

Lemma only_uid_yields_defaults_run :
  Field_of_string "1" = Normal (Field_of_number 1)
  /\ @fromJSON sample (object (only_uid "1")) fresh
     = (Normal (set_uid (Field_of_number 1) fresh),
        set_uid (Field_of_number 1) fresh)
  /\ @constructor sample (object (only_uid "1"))
     = Normal (set_uid (Field_of_number 1) fresh).
Proof.
  assert (H : Field_of_string "1" = Normal (Field_of_number 1)).
  { vm_compute. reflexivity. }
  pose proof (@only_uid_yields_defaults sample "1" (Field_of_number 1) H)
    as T.
  cbv zeta in T. destruct T as (F & K & _).
  split; [exact H|]. split; [exact F | exact K].
Defined.

Lemma malformed_input_fails_run :
  @malformed sample example_not_base58
  /\ (exists e,
         fst (@fromJSON sample (object example_not_base58) fresh) = Throw e
         /\ @parse_failure sample example_not_base58 e)
  /\ (forall c, @constructor sample (object example_not_base58) <> Normal c).
Proof.
  assert (M : @malformed sample example_not_base58).
  { exists (Error "Invalid base58 public key"). right. left.
    exists "not-base58". split; reflexivity. }
  destruct (@malformed_input_fails sample example_not_base58 fresh M)
    as (T & _ & _ & N & _).
  split; [exact M|]. split; [exact T | exact N].
Defined.

Lemma hash_is_Poseidon_of_the_declared_order_run :
  let c := set_uid (Field_of_number 1) fresh in
  uid c = Some (Field_of_number 1)
  /\ @hash sample c =
     Normal
       (@Poseidon_hash sample
          (Field_toFields (Field_of_number 1)
           ++ PublicKey_toFields (accountId c)
           ++ CircuitString_toFields (fullName c)
           ++ CircuitString_toFields (description c)
           ++ CircuitString_toFields (state c)
           ++ [approvedUTC c; createdUTC c; updatedUTC c]
           ++ admins c ++ validators c ++ auditors c ++ plans c)).
Proof.
  cbv zeta. split; [reflexivity|].
  exact (@hash_is_Poseidon_of_the_declared_order sample
           (set_uid (Field_of_number 1) fresh) (Field_of_number 1) eq_refl).
Defined.

Lemma hash_is_a_function_of_the_fields_run :
  let c :=
    set_admins [Field_of_number 2; Field_of_number 3]
      (set_uid (Field_of_number 1) fresh) in
  let c' := set_admins [Field_of_number 3; Field_of_number 2] c in
  uid c <> None
  /\ one_field_changed c c'
  /\ (exists l l',
         @hash sample c = Normal (@Poseidon_hash sample l)
         /\ @hash sample c' = Normal (@Poseidon_hash sample l')
         /\ l <> l'
         /\ (@hash sample c = @hash sample c' ->
             @Poseidon_hash sample l = @Poseidon_hash sample l')).
Proof.
  cbv zeta.
  assert (U : uid (set_admins [Field_of_number 2; Field_of_number 3]
                     (set_uid (Field_of_number 1) fresh)) <> None).
  { discriminate. }
  assert (Ch : one_field_changed
                 (set_admins [Field_of_number 2; Field_of_number 3]
                    (set_uid (Field_of_number 1) fresh))
                 (set_admins [Field_of_number 3; Field_of_number 2]
                    (set_admins [Field_of_number 2; Field_of_number 3]
                       (set_uid (Field_of_number 1) fresh)))).
  { apply changed_admins. vm_compute. discriminate. }
  destruct (@hash_is_a_function_of_the_fields sample undefined fresh)
    as (_ & _ & _ & D).
  split; [exact U|]. split; [exact Ch|]. exact (D _ _ U Ch).
Defined.

Lemma text_fields_never_exceed_maxLength_run :
  let json := with_fullName (letters 200) (only_uid "1") in
  text_fields_bounded fresh
  /\ (exists c,
         fst (@fromJSON sample (object json) fresh) = Normal c
         /\ fullName c = CircuitString_of (letters (maxLength - 1))
         /\ text_fields_bounded c).
Proof.
  cbv zeta.
  destruct (@text_fields_never_exceed_maxLength sample
              (with_fullName (letters 200) (only_uid "1")) fresh
              fresh_text_fields_bounded)
    as (B & (fn & de & st & _ & _ & _ & _ & _ & _ & K) & _).
  split; [exact B|].
  exists (set_fullName (CircuitString_of (letters (maxLength - 1)))
            (set_uid (Field_of_number 1) fresh)).
  assert (H : fst (@fromJSON sample
                     (object (with_fullName (letters 200) (only_uid "1")))
                     fresh)
              = Normal (set_fullName (CircuitString_of
                                        (letters (maxLength - 1)))
                          (set_uid (Field_of_number 1) fresh))).
  { vm_compute. reflexivity. }
  split; [exact H|]. split; [reflexivity|].
  destruct (K _ H) as (_ & _ & _ & Bc). exact Bc.
Defined.

Lemma asCircuitString_keeps_maxLength_minus_1_run :
  let s := letters maxLength in
  String.length s = maxLength
  /\ asCircuitString (Some s) (fullName fresh)
     = Normal (CircuitString_of (Js.substring s 0 (maxLength - 1)))
  /\ (exists last : ascii,
         s = (Js.substring s 0 (maxLength - 1) ++ String last "")%string).
Proof.
  cbv zeta.
  assert (L : String.length (letters maxLength) = maxLength).
  { vm_compute. reflexivity. }
  pose proof (asCircuitString_keeps_maxLength_minus_1 (letters maxLength)
                (fullName fresh)) as T.
  cbv zeta in T. destruct T as (_ & S & _ & _ & D).
  split; [exact L|]. split; [exact S | exact (D L)].
Defined.

Lemma admins_keep_their_order_run :
  let c23 :=
    set_admins [Field_of_number 2; Field_of_number 3]
      (set_uid (Field_of_number 1) fresh) in
  let c32 :=
    set_admins [Field_of_number 3; Field_of_number 2]
      (set_uid (Field_of_number 1) fresh) in
  @hash sample c23 <> @hash sample c32.
Proof.
  cbv zeta.
  pose proof (@admins_keep_their_order sample) as T. cbv zeta in T.
  destruct T
    as (_ & _ & _ & _ & _ & _ & _ & l23 & l32 & E23 & E32 & _ & _ & _ & D).
  apply D. intro Q.
  assert (X : @hash sample
                (set_admins [Field_of_number 2; Field_of_number 3]
                   (set_uid (Field_of_number 1) fresh))
              = @hash sample
                  (set_admins [Field_of_number 3; Field_of_number 2]
                     (set_uid (Field_of_number 1) fresh))).
  { rewrite E23, E32, Q. reflexivity. }
  revert X. vm_compute. discriminate.
Defined.

(* ===================================================================== *)
(** * Further properties of the class *)
(* ===================================================================== *)

(** ** When [fromJSON] returns, and what it leaves when it does not *)

Section Outcome.

Context {collaborators : Collaborators}.

Lemma fromJSON_pair (json : Json.t) (this c : _Community_) :
  fromJSON_outcome json this = Normal c ->
  fromJSON (object json) this = (Normal c, c).
Proof.
  intro O. destruct (fromJSON_object json this) as [F S].
  specialize (S c O). rewrite O in F.
  destruct (fromJSON (object json) this) as [r this']. simpl in *.
  now subst.
Qed.

(** [fromJSON] returns exactly on the inputs without a malformed [uid],
    key, timestamp or identifier: neither a text nor a missing property nor
    the object it runs on can make it throw. *)
Theorem fromJSON_returns_iff_not_malformed :
  forall (json : Json.t) (this : _Community_),
    ((exists c, fromJSON (object json) this = (Normal c, c))
     <-> ~ malformed json)
    /\ (forall this' : _Community_,
          (exists c, fst (fromJSON (object json) this) = Normal c) ->
          exists c', fst (fromJSON (object json) this') = Normal c').
Proof.
  intros json this.
  assert (R : forall t, ~ malformed json ->
                        exists c, fromJSON_outcome json t = Normal c).
  { intros t N. destruct (fromJSON_outcome json t) as [c|e] eqn:O; [eauto|].
    exfalso. apply N. exists e. now apply fromJSON_outcome_Throw in O. }
  split; [split|].
  - intros (c & H). apply (f_equal fst) in H. simpl in H.
    destruct (fromJSON_object json this) as [F _]. rewrite F in H.
    exact (fromJSON_outcome_Normal json this c H).
  - intro N. destruct (R this N) as (c & O). exists c.
    now apply fromJSON_pair.
  - intros this' (c & H).
    destruct (fromJSON_object json this) as [F _]. rewrite F in H.
    destruct (fromJSON_object json this') as [F' _]. rewrite F'.
    exact (R this' (fromJSON_outcome_Normal json this c H)).
Qed.

(** One statement of [fromJSON], for a property of the object it leaves
    that holds whether the coercion throws or not. *)
Ltac statement_leaves c := destruct c; simpl; [|reflexivity].

Lemma uid_is_assigned_first (json : Json.t) (this : _Community_) (u : Field) :
  Field_of_string (Json.uid json) = Normal u ->
  uid (snd (fromJSON (object json) this)) = Some u.
Proof.
  intro E. unfold fromJSON, seq, eval, read, assign. simpl. rewrite E.
  simpl.
  statement_leaves
    (asPublicKey (Json.accountId json) (Some (accountId this))).
  statement_leaves (asCircuitString (Json.fullName json) (fullName this)).
  statement_leaves
    (asCircuitString (Json.description json) (description this)).
  statement_leaves (asCircuitString (Json.state json) (state this)).
  statement_leaves (asField (Json.approvedUTC json) (approvedUTC this)).
  destruct (asField (Json.createdUTC json) (createdUTC this)) as [cr|]; simpl;
    [|reflexivity].
  statement_leaves (asField (Json.updatedUTC json) cr).
  statement_leaves (asArray (Json.admins json) (admins this)).
  statement_leaves (asArray (Json.validators json) (validators this)).
  statement_leaves (asArray (Json.auditors json) (auditors this)).
  statement_leaves (asArray (Json.plans json) (plans this)).
  reflexivity.
Qed.

(** [fromJSON] is not all-or-nothing.  On [undefined], on [null] and on a
    malformed [uid] it throws before any assignment and the object is left
    as it was; once the [uid] is parsed it is stored at once, so a later
    failure leaves an object whose [uid] is already replaced: with a
    malformed key, exactly the object with its [uid] replaced and nothing
    else. *)
Theorem fromJSON_failure_leaves_partial_object :
  forall (json : Json.t) (this : _Community_),
    snd (fromJSON undefined this) = this
    /\ snd (fromJSON null this) = this
    /\ (forall e, Field_of_string (Json.uid json) = Throw e ->
                  fromJSON (object json) this = (Throw e, this))
    /\ (forall u, Field_of_string (Json.uid json) = Normal u ->
                  uid (snd (fromJSON (object json) this)) = Some u)
    /\ (forall u s e,
          Field_of_string (Json.uid json) = Normal u ->
          Json.accountId json = Some s ->
          PublicKey_fromBase58 s = Throw e ->
          fromJSON (object json) this = (Throw e, set_uid u this)).
Proof.
  intros json this. split; [reflexivity|]. split; [reflexivity|].
  split; [|split].
  - intros e E. unfold fromJSON, seq, eval, read, assign. simpl.
    now rewrite E.
  - intros u E. now apply uid_is_assigned_first.
  - intros u s e E A K. unfold fromJSON, seq, eval, read, assign. simpl.
    rewrite E. simpl. rewrite A. simpl. now rewrite K.
Qed.

Lemma asField_again (o : option string) (d v : Field) :
  asField o d = Normal v -> asField o v = Normal v.
Proof. destruct o; simpl; [auto | congruence]. Qed.

Lemma asArray_again (o : option (list string)) (d v : list Field) :
  asArray o d = Normal v -> asArray o v = Normal v.
Proof. destruct o; simpl; [auto | congruence]. Qed.

Lemma asCircuitString_again (o : option string) (d v : CircuitString) :
  asCircuitString o d = Normal v -> asCircuitString o v = Normal v.
Proof.
  destruct o as [s|]; [|simpl; congruence].
  now rewrite !asCircuitString_Some.
Qed.

Lemma asPublicKey_again (o : option string) (d v : PublicKey) :
  asPublicKey o (Some d) = Normal v -> asPublicKey o (Some v) = Normal v.
Proof. destruct o; simpl; [auto | congruence]. Qed.

Lemma created_then_updated_again (c u : option string) (d v w : Field) :
  asField c d = Normal v -> asField u v = Normal w ->
  exists v', asField c w = Normal v' /\ asField u v' = Normal w.
Proof.
  destruct c as [c|], u as [u|]; simpl; intros Hc Hu.
  - exists v. auto.
  - exists v. split; congruence.
  - exists w. auto.
  - exists w. auto.
Qed.

(** [fromJSON] is idempotent: read a second time on the object it
    returned, the same input returns the same object. *)
Theorem fromJSON_idempotent :
  forall (json : Json.t) (this c : _Community_),
    fst (fromJSON (object json) this) = Normal c ->
    fromJSON (object json) c = (Normal c, c).
Proof.
  intros json this c O. destruct (fromJSON_object json this) as [F _].
  rewrite F in O. clear F. apply fromJSON_pair.
  unfold fromJSON_outcome in O.
  apply bind_Normal in O. destruct O as (u & Eu & O).
  apply bind_Normal in O. destruct O as (k & Ek & O).
  apply bind_Normal in O. destruct O as (fn & Efn & O).
  apply bind_Normal in O. destruct O as (de & Ede & O).
  apply bind_Normal in O. destruct O as (st & Est & O).
  apply bind_Normal in O. destruct O as (ap & Eap & O).
  apply bind_Normal in O. destruct O as (cr & Ecr & O).
  apply bind_Normal in O. destruct O as (cr' & Ecr' & O).
  apply bind_Normal in O. destruct O as (ad & Ead & O).
  apply bind_Normal in O. destruct O as (va & Eva & O).
  apply bind_Normal in O. destruct O as (au & Eau & O).
  apply bind_Normal in O. destruct O as (pl & Epl & O).
  injection O as <-.
  destruct (created_then_updated_again _ _ _ _ _ Ecr Ecr') as (v' & C1 & C2).
  unfold fromJSON_outcome.
  cbn [uid accountId fullName description state createdUTC updatedUTC
       approvedUTC admins validators auditors plans].
  rewrite Eu, (asPublicKey_again _ _ _ Ek), (asCircuitString_again _ _ _ Efn),
    (asCircuitString_again _ _ _ Ede), (asCircuitString_again _ _ _ Est),
    (asField_again _ _ _ Eap), C1.
  cbn [Js.bind]. rewrite C2, (asArray_again _ _ _ Ead),
    (asArray_again _ _ _ Eva), (asArray_again _ _ _ Eau),
    (asArray_again _ _ _ Epl).
  reflexivity.
Qed.

End Outcome.

(** ** What the hash does and does not tell apart *)

Section HashInput.

Context {collaborators : Collaborators}.

(** [hash] concatenates the four lists without their lengths: two
    Communities that agree on the other fields and on the concatenation of
    [admins], [validators], [auditors] and [plans] have the same hash,
    whatever Poseidon is.  An identifier moved from the end of one list to
    the head of the next goes unnoticed. *)
Theorem hash_does_not_separate_the_lists :
  forall c c' : _Community_,
    uid c' = uid c -> accountId c' = accountId c ->
    fullName c' = fullName c -> description c' = description c ->
    state c' = state c -> approvedUTC c' = approvedUTC c ->
    createdUTC c' = createdUTC c -> updatedUTC c' = updatedUTC c ->
    admins c' ++ validators c' ++ auditors c' ++ plans c'
    = admins c ++ validators c ++ auditors c ++ plans c ->
    hash c' = hash c.
Proof.
  intros [] []. cbn. intros. subst.
  unfold hash, uid_of. cbn.
  match goal with |- context [match ?u with Some _ => _ | None => _ end] =>
    destruct u; [|reflexivity]
  end.
  cbn. do 2 f_equal.
  repeat rewrite <- app_assoc.
  match goal with H : _ ++ _ = _ |- _ => now rewrite H end.
Qed.

Lemma length_fillWithNull (chars : list Character) (n : nat) :
  (List.length chars <= n)%nat -> List.length (fillWithNull chars n) = n.
Proof.
  intro H. unfold fillWithNull. rewrite length_app, repeat_length. lia.
Qed.

Lemma asCircuitString_padded (o : option string) (d cs : CircuitString) :
  padded d -> asCircuitString o d = Normal cs -> padded cs.
Proof.
  intro Pd. destruct o as [s|].
  - rewrite asCircuitString_Some. intro H. injection H as <-.
    unfold padded, CircuitString_of, CircuitString_fromCharacters.
    cbn [values]. apply length_fillWithNull.
    rewrite length_map, length_list_ascii_of_string, length_substring_0.
    unfold maxLength. lia.
  - simpl. intro H. now injection H as <-.
Qed.

Lemma fresh_text_fields_padded : text_fields_padded fresh.
Proof. repeat split. Qed.

(** The sequence [hash] hands to Poseidon has a fixed layout.  [fromJSON]
    keeps every text field at exactly [maxLength] characters, so on the
    object it returns the fields of fixed size fill the first 390 places,
    the three timestamps being the last of them (places 387 to 389), and
    the entries of the four lists follow from place 390 on. *)
Theorem hash_input_layout :
  forall (json : Json.t) (this c : _Community_),
    text_fields_padded this ->
    fst (fromJSON (object json) this) = Normal c ->
    text_fields_padded c
    /\ exists u front,
         uid c = Some u
         /\ hash c =
            Normal
              (Poseidon_hash
                 (fixed_part u c
                  ++ admins c ++ validators c ++ auditors c ++ plans c))
         /\ fixed_part u c
            = front ++ [approvedUTC c; createdUTC c; updatedUTC c]
         /\ List.length front = 387%nat
         /\ List.length (fixed_part u c) = 390%nat.
Proof.
  intros json this c (Pfn & Pde & Pst) O.
  destruct (fromJSON_object json this) as [F _].
  rewrite F in O. clear F. unfold fromJSON_outcome in O.
  apply bind_Normal in O. destruct O as (u & Eu & O).
  apply bind_Normal in O. destruct O as (k & Ek & O).
  apply bind_Normal in O. destruct O as (fn & Efn & O).
  apply bind_Normal in O. destruct O as (de & Ede & O).
  apply bind_Normal in O. destruct O as (st & Est & O).
  repeat (apply bind_Normal in O; destruct O as (? & ? & O)).
  injection O as <-.
  pose proof (asCircuitString_padded _ _ _ Pfn Efn) as Qfn.
  pose proof (asCircuitString_padded _ _ _ Pde Ede) as Qde.
  pose proof (asCircuitString_padded _ _ _ Pst Est) as Qst.
  split; [repeat split; assumption|].
  exists u.
  eexists ([u] ++ [x k; Bool_toField (isOdd k)]
           ++ List.map value (values fn)
           ++ List.map value (values de)
           ++ List.map value (values st)).
  split; [reflexivity|]. split.
  { match goal with
    | |- hash ?c = _ => rewrite (hash_declared_order c u eq_refl)
    end.
    unfold declared_order, fixed_part. now rewrite <- !app_assoc. }
  unfold fixed_part.
  cbn [uid accountId fullName description state approvedUTC createdUTC
       updatedUTC].
  split; [now rewrite <- !app_assoc|].
  unfold padded in Qfn, Qde, Qst.
  rewrite !length_app, !length_map, Qfn, Qde, Qst.
  unfold maxLength. split; reflexivity.
Qed.

(** Because [fromJSON] stores the parsed [updatedUTC] over [createdUTC], a
    well-formed [createdUTC] has no effect on what [fromJSON] returns
    whenever the input also holds an [updatedUTC]: two inputs that differ
    in [createdUTC] only give the same outcome, hence the same JSON form
    and the same hash. *)
Theorem createdUTC_is_discarded_when_updatedUTC_is_given :
  forall (json : Json.t) (this : _Community_) (s s' t : string) (f f' : Field),
    Json.updatedUTC json = Some t ->
    Field_of_string s = Normal f ->
    Field_of_string s' = Normal f' ->
    fst (fromJSON (object (with_createdUTC s json)) this)
    = fst (fromJSON (object (with_createdUTC s' json)) this).
Proof.
  intros json this s s' t f f' U E E'.
  destruct (fromJSON_object (with_createdUTC s json) this) as [-> _].
  destruct (fromJSON_object (with_createdUTC s' json) this) as [-> _].
  unfold fromJSON_outcome, with_createdUTC.
  cbn [Json.uid Json.accountId Json.fullName Json.description Json.state
       Json.approvedUTC Json.createdUTC Json.updatedUTC Json.admins
       Json.validators Json.auditors Json.plans].
  rewrite U. cbn [asField]. rewrite E, E'. cbn [Js.bind]. reflexivity.
Qed.

End HashInput.

(** ** Texts and identifiers through [fromJSON] and [toJSON] *)

Section Rendering.

Context {collaborators : Collaborators}.

Lemma forallb_filter {A : Type} (f : A -> bool) (l : list A) :
  forallb f (List.filter f l) = true.
Proof.
  induction l as [|a l IH]; simpl; [reflexivity|].
  destruct (f a) eqn:E; simpl; [now rewrite E|exact IH].
Qed.

Lemma printable_part_printable (text : string) :
  printable_text (printable_part text).
Proof.
  unfold printable_text, printable_part.
  rewrite list_ascii_of_string_of_list_ascii. apply forallb_filter.
Qed.

Lemma length_printable_part (text : string) :
  (String.length (printable_part text) <= String.length text)%nat.
Proof.
  unfold printable_part.
  rewrite length_string_of_list_ascii, <- length_list_ascii_of_string.
  apply length_filter_le.
Qed.

(** Whatever the text, an object [toJSON] returns after [fromJSON] gives
    back the printable characters among its first [maxLength - 1]
    characters: the text is cut first and the characters outside
    [' '..'~'] are dropped afterwards. *)
Theorem text_given_back_is_the_printable_prefix :
  forall (json : Json.t) (this c : _Community_) (out : Plain.t),
    fst (fromJSON (object json) this) = Normal c ->
    toJSON c = Normal out ->
    (forall s, Json.fullName json = Some s ->
       Plain.fullName out
       = printable_part (Js.substring s 0 (maxLength - 1)))
    /\ (forall s, Json.description json = Some s ->
          Plain.description out
          = printable_part (Js.substring s 0 (maxLength - 1)))
    /\ (forall s, Json.state json = Some s ->
          Plain.state out
          = printable_part (Js.substring s 0 (maxLength - 1))).
Proof.
  intros json this c out O T. destruct (fromJSON_object json this) as [F _].
  rewrite F in O. clear F. unfold fromJSON_outcome in O.
  apply bind_Normal in O. destruct O as (u & Eu & O).
  apply bind_Normal in O. destruct O as (k & Ek & O).
  apply bind_Normal in O. destruct O as (fn & Efn & O).
  apply bind_Normal in O. destruct O as (de & Ede & O).
  apply bind_Normal in O. destruct O as (st & Est & O).
  repeat (apply bind_Normal in O; destruct O as (? & ? & O)).
  injection O as <-.
  apply toJSON_Normal in T.
  destruct T as (u' & tap & tcr & tup & _ & _ & _ & _ & ->).
  cbn [Plain.fullName Plain.description Plain.state fullName description
       state].
  repeat split; intros s E.
  - rewrite E, asCircuitString_Some in Efn. injection Efn as <-.
    rewrite substring_from_0. apply CircuitString_toString_of.
  - rewrite E, asCircuitString_Some in Ede. injection Ede as <-.
    rewrite substring_from_0. apply CircuitString_toString_of.
  - rewrite E, asCircuitString_Some in Est. injection Est as <-.
    rewrite substring_from_0. apply CircuitString_toString_of.
Qed.

(** Reading a text, printing it and reading the print settles: the second
    [CircuitString] prints as the first one does, and reading its print
    gives it back, whatever the default passed each time. *)
Theorem asCircuitString_settles_after_one_round :
  forall (s : string) (d d' d'' : CircuitString),
    exists cs cs',
      asCircuitString (Some s) d = Normal cs
      /\ asCircuitString (Some (CircuitString_toString cs)) d' = Normal cs'
      /\ CircuitString_toString cs' = CircuitString_toString cs
      /\ asCircuitString (Some (CircuitString_toString cs')) d''
         = Normal cs'.
Proof.
  intros s d d' d''.
  set (kept := String.substring 0 (maxLength - 1) s).
  assert (L : (String.length (printable_part kept) <= maxLength - 1)%nat).
  { pose proof (length_printable_part kept).
    pose proof (length_substring_0 (maxLength - 1) s). subst kept. lia. }
  assert (T : CircuitString_toString (CircuitString_of (printable_part kept))
              = printable_part kept).
  { apply toString_of_printable, printable_part_printable. }
  exists (CircuitString_of kept), (CircuitString_of (printable_part kept)).
  split; [apply asCircuitString_Some|].
  rewrite CircuitString_toString_of. fold (printable_part kept).
  rewrite T, !asCircuitString_Some, (substring_0_ge _ _ L).
  repeat split.
Qed.

Lemma asArray_in_range (o : option (list string)) (d r : list Field) :
  Forall in_range d -> asArray o d = Normal r -> Forall in_range r.
Proof.
  intro Hd. destruct o as [l|]; simpl.
  - intro H. apply map_Normal in H.
    induction H as [|t f l r E _ IH]; constructor; [|exact IH].
    exact (Field_of_string_in_range t f E).
  - intro H. now injection H as <-.
Qed.

Lemma canonical_toString (l : list Field) :
  Forall in_range l -> Forall canonical (List.map Field_toString l).
Proof.
  induction 1 as [|f l R _ IH]; simpl; constructor; [|exact IH].
  apply canonical_iff_numeral. now exists f.
Qed.

(** [fromJSON] normalises identifiers: whatever the spelling of the
    numerals in the input (leading zeros, white space, a sign, base 16),
    it stores canonical field elements, and an object [toJSON] returns
    holds the [uid] and the entries of the four lists as canonical decimal
    numerals, which [Field] parses back to the same elements. *)
Theorem toJSON_identifiers_are_canonical :
  forall (json : Json.t) (this c : _Community_),
    identifiers_in_range this ->
    fst (fromJSON (object json) this) = Normal c ->
    identifiers_in_range c
    /\ (forall out : Plain.t,
          toJSON c = Normal out ->
          canonical (Plain.uid out)
          /\ Forall canonical (Plain.admins out)
          /\ Forall canonical (Plain.validators out)
          /\ Forall canonical (Plain.auditors out)
          /\ Forall canonical (Plain.plans out)).
Proof.
  intros json this c (Rad & Rva & Rau & Rpl) O.
  destruct (fromJSON_object json this) as [F _].
  rewrite F in O. clear F. unfold fromJSON_outcome in O.
  apply bind_Normal in O. destruct O as (u & Eu & O).
  apply bind_Normal in O. destruct O as (k & Ek & O).
  apply bind_Normal in O. destruct O as (fn & Efn & O).
  apply bind_Normal in O. destruct O as (de & Ede & O).
  apply bind_Normal in O. destruct O as (st & Est & O).
  apply bind_Normal in O. destruct O as (ap & Eap & O).
  apply bind_Normal in O. destruct O as (cr & Ecr & O).
  apply bind_Normal in O. destruct O as (cr' & Ecr' & O).
  apply bind_Normal in O. destruct O as (ad & Ead & O).
  apply bind_Normal in O. destruct O as (va & Eva & O).
  apply bind_Normal in O. destruct O as (au & Eau & O).
  apply bind_Normal in O. destruct O as (pl & Epl & O).
  injection O as <-.
  pose proof (asArray_in_range _ _ _ Rad Ead) as Qad.
  pose proof (asArray_in_range _ _ _ Rva Eva) as Qva.
  pose proof (asArray_in_range _ _ _ Rau Eau) as Qau.
  pose proof (asArray_in_range _ _ _ Rpl Epl) as Qpl.
  split; [repeat split; assumption|].
  intros out T. apply toJSON_Normal in T.
  destruct T as (u' & tap & tcr & tup & U & _ & _ & _ & ->).
  cbn [uid] in U. injection U as <-.
  cbn [Plain.uid Plain.admins Plain.validators Plain.auditors Plain.plans
       admins validators auditors plans].
  split.
  { apply canonical_iff_numeral. exists u. split; [|reflexivity].
    exact (Field_of_string_in_range _ _ Eu). }
  repeat split; now apply canonical_toString.
Qed.

(** [asArray] converts the entries from left to right and stops at the
    first one [Field] rejects: the exception thrown is that entry's,
    whatever follows it; when every entry is accepted the result has one
    element per entry. *)
Theorem asArray_stops_at_the_first_malformed_entry :
  forall (good rest : list string) (bad : string) (d fs : list Field)
         (e : exn),
    Js.map Field_of_string good = Normal fs ->
    Field_of_string bad = Throw e ->
    asArray (Some (good ++ bad :: rest)) d = Throw e
    /\ asArray (Some good) d = Normal fs
    /\ List.length fs = List.length good.
Proof.
  intros good rest bad d fs e G B. simpl asArray.
  split; [|split; [exact G|]].
  - revert fs G. induction good as [|t good IH]; intros fs G.
    + simpl. now rewrite B.
    + simpl in G |- *.
      destruct (Field_of_string t) as [f|]; simpl in G |- *; [|discriminate].
      destruct (Js.map Field_of_string good) as [fs'|]; simpl in G;
        [|discriminate].
      now rewrite (IH fs' eq_refl).
  - apply map_Normal in G. induction G; simpl; auto.
Qed.

End Rendering.

(** ** Objects that were constructed *)

Section Constructed.

Context {collaborators : Collaborators}.

(** On an object that [fromJSON] or the constructor returned, [hash]
    never throws and [toJSON] throws only what the date-time helper throws
    on one of the three timestamps: the input was an object, the [uid]
    holds a field element, and [toJSON] returns when the helper renders
    the three timestamps. *)
Theorem returned_objects_hash_and_serialise_up_to_the_date_helper :
  forall (input : any) (this c : _Community_),
    fst (fromJSON input this) = Normal c \/ constructor input = Normal c ->
    (exists json, input = object json /\ ~ malformed json)
    /\ (exists u,
           uid c = Some u
           /\ hash c = Normal (Poseidon_hash (declared_order u c))
           /\ (forall out, toJSON c = Normal out ->
                           Plain.uid out = Field_toString u)
           /\ (forall ap cr up,
                 UTCDateTime_toString (approvedUTC c) = Normal ap ->
                 UTCDateTime_toString (createdUTC c) = Normal cr ->
                 UTCDateTime_toString (updatedUTC c) = Normal up ->
                 exists out, toJSON c = Normal out)
           /\ (forall e, toJSON c = Throw e ->
                 UTCDateTime_toString (approvedUTC c) = Throw e
                 \/ UTCDateTime_toString (createdUTC c) = Throw e
                 \/ UTCDateTime_toString (updatedUTC c) = Throw e)).
Proof.
  intros input this c H.
  assert (exists json t, input = object json
                         /\ fromJSON_outcome json t = Normal c)
    as (json & t & -> & O).
  { destruct input as [| |json].
    - destruct H as [H|H]; discriminate H.
    - destruct H as [H|H]; discriminate H.
    - exists json. destruct H as [H|H].
      + exists this. destruct (fromJSON_object json this) as [F _].
        now rewrite <- F.
      + exists fresh. now rewrite <- constructor_object. }
  split.
  { exists json. split; [reflexivity|].
    exact (fromJSON_outcome_Normal json t c O). }
  assert (exists u, uid c = Some u) as (u & U).
  { unfold fromJSON_outcome in O.
    apply bind_Normal in O. destruct O as (u & Eu & O).
    repeat (apply bind_Normal in O; destruct O as (? & ? & O)).
    injection O as <-. now exists u. }
  exists u. split; [exact U|].
  split; [exact (hash_declared_order c u U)|].
  split; [|split].
  - intros out T. apply toJSON_Normal in T.
    destruct T as (u' & ap & cr & up & U' & _ & _ & _ & ->).
    cbn [Plain.uid]. congruence.
  - intros ap cr up Eap Ecr Eup. unfold toJSON, uid_of.
    rewrite U, Eap, Ecr, Eup. cbn [Js.bind]. eauto.
  - intros e T. exact (toJSON_Throw c u e U T).
Qed.

(** What lies beyond the first [maxLength - 1] characters of a text never
    reaches the object: two inputs whose [fullName] agree on that prefix,
    and on everything else, give the same outcome, hence the same JSON form
    and the same hash. *)
Theorem fullName_beyond_the_cut_is_ignored :
  forall (json : Json.t) (this : _Community_) (s s' : string),
    Js.substring s 0 (maxLength - 1) = Js.substring s' 0 (maxLength - 1) ->
    fromJSON (object (with_fullName s json)) this
    = fromJSON (object (with_fullName s' json)) this.
Proof.
  intros json this s s' E. rewrite !substring_from_0 in E.
  unfold fromJSON, seq, eval, read, assign, with_fullName.
  cbn -[asCircuitString asPublicKey asField asArray Field_of_string].
  destruct (Field_of_string (Json.uid json));
    cbn -[asCircuitString asPublicKey asField asArray Field_of_string];
    [|reflexivity].
  destruct (asPublicKey (Json.accountId json) (Some (accountId this)));
    cbn -[asCircuitString asPublicKey asField asArray Field_of_string];
    [|reflexivity].
  now rewrite !asCircuitString_Some, E.
Qed.

End Constructed.

(* ===================================================================== *)
(** * Further runs on concrete inputs *)
(* ===================================================================== *)

Lemma fromJSON_failure_leaves_partial_object_run :
  @fromJSON sample (object example_not_base58) fresh
  = (Throw (Error "Invalid base58 public key"),
     set_uid (Field_of_number 1) fresh).
Proof.
  destruct (@fromJSON_failure_leaves_partial_object sample
              example_not_base58 fresh) as (_ & _ & _ & _ & K).
  exact (K (Field_of_number 1) "not-base58"
           (Error "Invalid base58 public key") eq_refl eq_refl eq_refl).
Defined.

Lemma fromJSON_idempotent_run :
  let c :=
    set_createdUTC (Field_of_number 7)
      (set_approvedUTC (Field_of_number 3)
         (set_uid (Field_of_number 1) fresh)) in
  fst (@fromJSON sample (object example_timestamps) fresh) = Normal c
  /\ @fromJSON sample (object example_timestamps) c = (Normal c, c).
Proof.
  cbv zeta.
  assert (H : fst (@fromJSON sample (object example_timestamps) fresh)
              = Normal (set_createdUTC (Field_of_number 7)
                          (set_approvedUTC (Field_of_number 3)
                             (set_uid (Field_of_number 1) fresh)))).
  { vm_compute. reflexivity. }
  split; [exact H|].
  exact (@fromJSON_idempotent sample _ _ _ H).
Defined.

Lemma hash_does_not_separate_the_lists_run :
  let c :=
    set_validators []
      (set_admins [Field_of_number 2; Field_of_number 3]
         (set_uid (Field_of_number 1) fresh)) in
  let c' :=
    set_validators [Field_of_number 3]
      (set_admins [Field_of_number 2]
         (set_uid (Field_of_number 1) fresh)) in
  c' <> c /\ @hash sample c' = @hash sample c.
Proof.
  cbv zeta. split; [discriminate|].
  apply (@hash_does_not_separate_the_lists sample); reflexivity.
Defined.

Lemma hash_input_layout_run :
  let json := with_fullName (letters 200) (only_uid "1") in
  text_fields_padded fresh
  /\ exists c,
       fst (@fromJSON sample (object json) fresh) = Normal c
       /\ text_fields_padded c
       /\ List.length (fixed_part (Field_of_number 1) c) = 390%nat.
Proof.
  cbv zeta. split; [exact fresh_text_fields_padded|].
  exists (set_fullName (CircuitString_of (letters (maxLength - 1)))
            (set_uid (Field_of_number 1) fresh)).
  assert (H : fst (@fromJSON sample
                     (object (with_fullName (letters 200) (only_uid "1")))
                     fresh)
              = Normal (set_fullName (CircuitString_of
                                        (letters (maxLength - 1)))
                          (set_uid (Field_of_number 1) fresh))).
  { vm_compute. reflexivity. }
  destruct (@hash_input_layout sample _ _ _ fresh_text_fields_padded H)
    as (P & u & front & U & _ & _ & _ & L).
  split; [exact H|]. split; [exact P|].
  injection U as <-. exact L.
Defined.

Lemma createdUTC_is_discarded_when_updatedUTC_is_given_run :
  Json.updatedUTC example_timestamps = Some "7"
  /\ Field_of_string "5" = Normal (Field_of_number 5)
  /\ Field_of_string "6" = Normal (Field_of_number 6)
  /\ fst (@fromJSON sample
            (object (with_createdUTC "5" example_timestamps)) fresh)
     = fst (@fromJSON sample
              (object (with_createdUTC "6" example_timestamps)) fresh).
Proof.
  assert (E5 : Field_of_string "5" = Normal (Field_of_number 5)).
  { vm_compute. reflexivity. }
  assert (E6 : Field_of_string "6" = Normal (Field_of_number 6)).
  { vm_compute. reflexivity. }
  split; [reflexivity|]. split; [exact E5|]. split; [exact E6|].
  exact (@createdUTC_is_discarded_when_updatedUTC_is_given sample
           example_timestamps fresh "5" "6" "7" _ _ eq_refl E5 E6).
Defined.

Lemma text_given_back_is_the_printable_prefix_run :
  let text := String "A" (String (ascii_of_nat 10) (String "b" "")) in
  let json := with_fullName text (only_uid "1") in
  let c := set_fullName (CircuitString_of text)
             (set_uid (Field_of_number 1) fresh) in
  fst (@fromJSON sample_iso (object json) fresh) = Normal c
  /\ exists out,
       @toJSON sample_iso c = Normal out /\ Plain.fullName out = "Ab".
Proof.
  cbv zeta.
  assert (H : fst (@fromJSON sample_iso
                     (object (with_fullName
                                (String "A" (String (ascii_of_nat 10)
                                               (String "b" "")))
                                (only_uid "1"))) fresh)
              = Normal (set_fullName
                          (CircuitString_of
                             (String "A" (String (ascii_of_nat 10)
                                            (String "b" ""))))
                          (set_uid (Field_of_number 1) fresh))).
  { vm_compute. reflexivity. }
  split; [exact H|].
  eexists. split; [vm_compute; reflexivity|].
  refine (proj1 (@text_given_back_is_the_printable_prefix sample_iso
                   _ _ _ _ H _) _ eq_refl).
  vm_compute. reflexivity.
Defined.

Lemma toJSON_identifiers_are_canonical_run :
  let json := with_admins ["007"; " 0x10 "] (only_uid "1") in
  let c :=
    set_admins [Field_of_number 7; Field_of_number 16]
      (set_uid (Field_of_number 1) fresh) in
  identifiers_in_range fresh
  /\ fst (@fromJSON sample_iso (object json) fresh) = Normal c
  /\ exists out,
       @toJSON sample_iso c = Normal out
       /\ Plain.admins out = ["7"; "16"]
       /\ Forall canonical (Plain.admins out).
Proof.
  cbv zeta.
  assert (R : identifiers_in_range fresh).
  { repeat split; constructor. }
  assert (H : fst (@fromJSON sample_iso
                     (object (with_admins ["007"; " 0x10 "] (only_uid "1")))
                     fresh)
              = Normal (set_admins [Field_of_number 7; Field_of_number 16]
                          (set_uid (Field_of_number 1) fresh))).
  { vm_compute. reflexivity. }
  split; [exact R|]. split; [exact H|].
  destruct (@toJSON_identifiers_are_canonical sample_iso _ _ _ R H)
    as (_ & C).
  eexists. split; [vm_compute; reflexivity|]. split; [reflexivity|].
  refine (proj1 (proj2 (C _ _))). vm_compute. reflexivity.
Defined.

Lemma asArray_stops_at_the_first_malformed_entry_run :
  Js.map Field_of_string ["1"] = Normal [Field_of_number 1]
  /\ Field_of_string "x"
     = Throw (SyntaxError "Cannot convert x to a BigInt")
  /\ asArray (Some ["1"; "x"; "y"]) []
     = Throw (SyntaxError "Cannot convert x to a BigInt").
Proof.
  assert (G : Js.map Field_of_string ["1"] = Normal [Field_of_number 1]).
  { vm_compute. reflexivity. }
  assert (B : Field_of_string "x"
              = Throw (SyntaxError "Cannot convert x to a BigInt")).
  { vm_compute. reflexivity. }
  split; [exact G|]. split; [exact B|].
  exact (proj1 (asArray_stops_at_the_first_malformed_entry
                  ["1"] ["y"] "x" [] _ _ G B)).
Defined.

Lemma returned_objects_hash_and_serialise_up_to_the_date_helper_run :
  let json := with_createdUTC "1000" (only_uid "1") in
  let c :=
    set_createdUTC (Field_of_number 1000)
      (set_uid (Field_of_number 1) fresh) in
  @constructor sample_iso (object json) = Normal c
  /\ @hash sample_iso c
     = Normal (@Poseidon_hash sample_iso
                 (declared_order (Field_of_number 1) c))
  /\ @toJSON sample_iso c = Throw (RangeError "Invalid time value")
  /\ @UTCDateTime_toString sample_iso (createdUTC c)
     = Throw (RangeError "Invalid time value").
Proof.
  cbv zeta.
  assert (H : @constructor sample_iso
                (object (with_createdUTC "1000" (only_uid "1")))
              = Normal (set_createdUTC (Field_of_number 1000)
                          (set_uid (Field_of_number 1) fresh))).
  { vm_compute. reflexivity. }
  assert (T : @toJSON sample_iso
                (set_createdUTC (Field_of_number 1000)
                   (set_uid (Field_of_number 1) fresh))
              = Throw (RangeError "Invalid time value")).
  { vm_compute. reflexivity. }
  destruct (@returned_objects_hash_and_serialise_up_to_the_date_helper
              sample_iso _ fresh _ (or_intror H))
    as (_ & u & U & Hh & _ & _ & Th).
  injection U as <-.
  split; [exact H|]. split; [exact Hh|]. split; [exact T|].
  destruct (Th _ T) as [E | [E | E]].
  - vm_compute in E. discriminate E.
  - exact E.
  - vm_compute in E. discriminate E.
Defined.

Lemma fullName_beyond_the_cut_is_ignored_run :
  let s := (letters (maxLength - 1) ++ "b")%string in
  let s' := (letters (maxLength - 1) ++ "c and more")%string in
  s <> s'
  /\ @fromJSON sample (object (with_fullName s (only_uid "1"))) fresh
     = @fromJSON sample (object (with_fullName s' (only_uid "1"))) fresh.
Proof.
  cbv zeta. split; [vm_compute; discriminate|].
  apply (@fullName_beyond_the_cut_is_ignored sample).
  vm_compute. reflexivity.
Defined.
